(** * AgenticUIUX: the canvas page and its screen registry

    A shallow embedding of the React page component (the [Home] component
    with its handlers [handleDeviceChange], [handleGenerate],
    [handleScreenUpdate], [handleAddScreen]) and of
    [frontend/components/Canvas.tsx], [ScreenFrame.tsx] and [CodePanel.tsx],
    followed by the properties of the canvas coordinate engine, of the
    generation run and of the page in its event loop.

    Conventions of the embedding:
    - a JS [number] holding a coordinate or a size is an integer ([Z]);
      its sums and differences are taken exactly, as the double arithmetic
      of JS does below 2^53, and module [Number] writes the rounding of
      that arithmetic out; the viewport scale, which takes the values 0.4
      and 0.1, is a rational ([Q]);
    - a JS string is a [string] that holds its UTF-8 encoding;
    - [string | null] is [option string];
    - the React state [screens] is a [list ScreenData]; every
      [setScreens(prev => ...)] is a function on that list, applied to the
      state that is current when the update runs;
    - what the page does to the outside world (state updates, the request,
      alerts, the timer) is recorded as a list of [Action]s in program
      order; the answer of the backend comes from an environment that maps
      the number of a request to its outcome. *)

From Stdlib Require Import ZArith QArith Qminmax Qround Lia Lqa.
From Stdlib Require Import Ascii String.
From stdpp Require Import base option list strings pretty.

Local Open Scope Z_scope.

(** ** Canvas.tsx: the screen record and the centring offset *)

Module Canvas.

(** [interface ScreenData]. In the page every screen is built with a
    boolean [loading], so the optional field is a [bool]. *)
Record ScreenData : Type := mkScreen {
  id : string;
  name : string;
  html : option string;
  w : Z;
  h : Z;
  x : Z;
  y : Z;
  loading : bool
}.

(** [Partial<ScreenData>]: every key may be absent ([None]). *)
Record PartialScreenData : Type := mkPartial {
  p_id : option string;
  p_name : option string;
  p_html : option (option string);
  p_w : option Z;
  p_h : option Z;
  p_x : option Z;
  p_y : option Z;
  p_loading : option bool
}.

Definition noData : PartialScreenData :=
  mkPartial None None None None None None None None.

(** The object spread [{ ...s, ...data }]: a key present in [data] wins. *)
Definition spread (s : ScreenData) (data : PartialScreenData) : ScreenData :=
  {| id := default (id s) (p_id data);
     name := default (name s) (p_name data);
     html := default (html s) (p_html data);
     w := default (w s) (p_w data);
     h := default (h s) (p_h data);
     x := default (x s) (p_x data);
     y := default (y s) (p_y data);
     loading := default (loading s) (p_loading data) |}.

(** The geometry of a screen, as the tuple (x, y, w, h). *)
Definition geometry (s : ScreenData) : Z * Z * Z * Z := (x s, y s, w s, h s).

(** A point of the canvas. *)
Definition Point : Type := (Z * Z)%type.

(** The literal 2500 of [x={screen.x + 2500}] and of [x - 2500]. *)
Definition centerOffset : Z := 2500.

(** World to render space: [screen.x + 2500], [screen.y + 2500], on
    integers and without rounding ([Number.toRender] has the rounding). *)
Definition toRender (p : Point) : Point := (p.1 + centerOffset, p.2 + centerOffset).

(** Render to world space: [x - 2500], [y - 2500], on integers and
    without rounding ([Number.toWorld] has the rounding). *)
Definition toWorld (p : Point) : Point := (p.1 - centerOffset, p.2 - centerOffset).

(** The props handed to [ScreenFrame] for one screen. *)
Record ScreenFrameProps : Type := mkFrame {
  f_key : string;
  f_name : string;
  f_preview : option string;
  f_width : Z;
  f_height : Z;
  f_x : Z;
  f_y : Z;
  f_loading : bool
}.

Definition frameProps (screen : ScreenData) : ScreenFrameProps :=
  {| f_key := id screen;
     f_name := name screen;
     f_preview := html screen;
     f_width := w screen;
     f_height := h screen;
     f_x := (toRender (x screen, y screen)).1;
     f_y := (toRender (x screen, y screen)).2;
     f_loading := loading screen |}.

(** [onDragStop={(x, y) => onScreenUpdate(screen.id, { x: x - 2500, y: y - 2500 })}]:
    the arguments of the [onScreenUpdate] call. *)
Definition onDragStop (screen : ScreenData) (rx ry : Z) : string * PartialScreenData :=
  (id screen,
   mkPartial None None None None None
     (Some (toWorld (rx, ry)).1) (Some (toWorld (rx, ry)).2) None).

(** [onResizeStop={(w, h, x, y) => onScreenUpdate(screen.id, { w, h, x: x - 2500, y: y - 2500 })}]. *)
Definition onResizeStop (screen : ScreenData) (rw rh rx ry : Z) : string * PartialScreenData :=
  (id screen,
   mkPartial None None None (Some rw) (Some rh)
     (Some (toWorld (rx, ry)).1) (Some (toWorld (rx, ry)).2) None).

(** The [TransformWrapper] props. *)
Record TransformConfig : Type := mkConfig {
  initialScale : Q;
  initialPositionX : Q;
  initialPositionY : Q;
  minScale : Q;
  maxScale : Q;
  wheelStep : Q
}.

Definition config : TransformConfig :=
  {| initialScale := 1;
     initialPositionX := -2000;
     initialPositionY := -2000;
     minScale := 4 # 10;
     maxScale := 4;
     wheelStep := 1 # 10 |}.

End Canvas.

Import Canvas.

(** ** JS numbers that hold integers

    A JS number is a binary64 float. A float whose value is an integer is
    written as that integer. The sum or the difference of two of them is
    the exact result rounded to the nearest float, a tie going to the even
    significand; from 2^1024 on the result is not a finite number. *)

Module Number.

(** The nearest float of an integer: 53 significant bits are kept. *)
Definition round64 (z : Z) : option Z :=
  let a := Z.abs z in
  if a <=? 2 ^ 53 then Some z
  else
    let e := Z.log2 a - 52 in
    let q := a / 2 ^ e in
    let r := a mod 2 ^ e in
    let half := 2 ^ (e - 1) in
    let m := if r <? half then q
             else if half <? r then q + 1
             else if Z.even q then q else q + 1 in
    if 2 ^ 1024 <=? m * 2 ^ e then None else Some (Z.sgn z * (m * 2 ^ e)).

(** The integers that are floats. *)
Definition representable (z : Z) : Prop := round64 z = Some z.

(** [a + b] and [a - b]. *)
Definition add (a b : Z) : option Z := round64 (a + b).

Definition sub (a b : Z) : option Z := round64 (a - b).

(** [screen.x + 2500], [screen.y + 2500]. *)
Definition toRender (p : Point) : option Point :=
  rx ← add p.1 centerOffset; ry ← add p.2 centerOffset; Some (rx, ry).

(** [x - 2500], [y - 2500]. *)
Definition toWorld (p : Point) : option Point :=
  wx ← sub p.1 centerOffset; wy ← sub p.2 centerOffset; Some (wx, wy).

(** The coordinates that are at least 2500 away from the last integer up
    to which every integer is a float. *)
Definition safe (c : Z) : Prop := Z.abs c ≤ 2 ^ 53 - 2500.

End Number.

(** ** lib/api: the contract of [generateComponent] *)

Module Api.

(** The response object read by the page: [success], [code],
    [html_preview]. *)
Record Response : Type := mkResponse {
  success : bool;
  code : string;
  html_preview : string
}.

(** What [await generateComponent(...)] does: it yields a response or it
    throws. *)
Inductive Outcome : Type :=
| Resolved (response : Response)
| Rejected.

(** The backend, seen from the page: the outcome of the k-th request of a
    run (the first request has number 0). *)
Definition Env : Type := nat → Outcome.

Definition failed (o : Outcome) : bool :=
  match o with
  | Resolved response => negb (success response)
  | Rejected => true
  end.

End Api.

(** ** The page component [Home] *)

Module Page.

Inductive DeviceType : Type := mobile | web | tablet.

#[export] Instance DeviceType_eq_dec : EqDecision DeviceType.
Proof. solve_decision. Defined.

(** The React state of [Home]. *)
Record State : Type := mkState {
  deviceType : DeviceType;
  projectName : string;
  theme : string;
  prompt : string;
  code : option string;
  showCode : bool;
  screens : list ScreenData
}.

(** The [useState] initial values. *)
Definition initialState : State :=
  {| deviceType := web;
     projectName := "Untitled Project";
     theme := "light";
     prompt := "";
     code := None;
     showCode := true;
     screens := [ mkScreen "main" "App Screen" None 1024 768 0 0 false ] |}.

Definition setDeviceType (type : DeviceType) (st : State) : State :=
  mkState type (projectName st) (theme st) (prompt st) (code st) (showCode st) (screens st).

Definition setPrompt (p : string) (st : State) : State :=
  mkState (deviceType st) (projectName st) (theme st) p (code st) (showCode st) (screens st).

Definition setCode (c : option string) (st : State) : State :=
  mkState (deviceType st) (projectName st) (theme st) (prompt st) c (showCode st) (screens st).

(** [setScreens(prev => f(prev))]. *)
Definition setScreens (f : list ScreenData → list ScreenData) (st : State) : State :=
  mkState (deviceType st) (projectName st) (theme st) (prompt st) (code st) (showCode st)
          (f (screens st)).

(** *** handleDeviceChange *)

(** The [switch (type)] of [handleDeviceChange]: the pair (w, h). *)
Definition deviceSize (type : DeviceType) : Z * Z :=
  match type with
  | mobile => (375, 812)
  | tablet => (768, 1024)
  | web => (1024, 768)
  end.

(** [{ ...s, w, h }]. *)
Definition resize (type : DeviceType) (s : ScreenData) : ScreenData :=
  mkScreen (id s) (name s) (html s) (deviceSize type).1 (deviceSize type).2
           (x s) (y s) (loading s).

Definition handleDeviceChange (type : DeviceType) (st : State) : State :=
  setScreens (fmap (resize type)) (setDeviceType type st).

(** *** handleScreenUpdate *)

(** [prev.map((s) => (s.id === id ? { ...s, ...data } : s))]. *)
Definition updateById (i : string) (data : PartialScreenData) (s : ScreenData) : ScreenData :=
  if decide (id s = i) then spread s data else s.

Definition handleScreenUpdate (i : string) (data : PartialScreenData) (st : State) : State :=
  setScreens (fmap (updateById i data)) st.

(** *** handleAddScreen *)

(** [deviceType === "mobile" ? 375 : deviceType === "tablet" ? 768 : 1024]. *)
Definition addWidth (type : DeviceType) : Z :=
  if decide (type = mobile) then 375 else if decide (type = tablet) then 768 else 1024.

(** [deviceType === "mobile" ? 812 : deviceType === "tablet" ? 1024 : 768]. *)
Definition addHeight (type : DeviceType) : Z :=
  if decide (type = mobile) then 812 else if decide (type = tablet) then 1024 else 768.

(** [v || null] on a [string | null | undefined]: the empty string is
    falsy. *)
Definition orNull (v : option string) : option string :=
  match v with
  | Some "" => None
  | _ => v
  end.

(** The object [newScreen]; [now] is the value of [Date.now()]. *)
Definition newScreen (st : State) (now : Z) : ScreenData :=
  let n := Z.of_nat (length (screens st)) in
  {| id := "screen-" +:+ pretty now;
     name := "Screen " +:+ pretty (n + 1);
     html := orNull (head (screens st) ≫= html);
     w := addWidth (deviceType st);
     h := addHeight (deviceType st);
     x := 50 + n * 20;
     y := 50 + n * 20;
     loading := default false (loading <$> head (screens st)) |}.

(** [setScreens((prev) => [...prev, newScreen])]; the handler runs on the
    state it was rendered with, so [screens] and [prev] are the same list. *)
Definition handleAddScreen (now : Z) (st : State) : State :=
  setScreens (λ prev, prev ++ [newScreen st now]) st.

(** Successive clicks on "add screen", at the times [nows]. *)
Definition addScreens (nows : list Z) (st : State) : State :=
  foldl (λ st' now, handleAddScreen now st') st nows.

(** The registry after the device class is chosen on a fresh page and
    screens are added. *)
Definition constructedRegistry (type : DeviceType) (nows : list Z) : list ScreenData :=
  screens (addScreens nows (handleDeviceChange type initialState)).

(** *** handleGenerate *)

(** [!s] for a string [s]. *)
Definition falsy (s : string) : bool :=
  match s with
  | EmptyString => true
  | _ => false
  end.

(** The characters that JS [String.prototype.trim] removes (WhiteSpace
    and LineTerminator), each by the bytes of its UTF-8 encoding. *)
Definition whiteSpaceTable : list (list nat) :=
  ([ [9]; [10]; [11]; [12]; [13]; [32];        (* TAB, LF, VT, FF, CR, SPACE *)
    [194; 160];                               (* U+00A0 *)
    [225; 154; 128];                          (* U+1680 *)
    [226; 128; 128]; [226; 128; 129]; [226; 128; 130]; [226; 128; 131];
    [226; 128; 132]; [226; 128; 133]; [226; 128; 134]; [226; 128; 135];
    [226; 128; 136]; [226; 128; 137]; [226; 128; 138];   (* U+2000 .. U+200A *)
    [226; 128; 168]; [226; 128; 169];         (* U+2028, U+2029 *)
    [226; 128; 175];                          (* U+202F *)
    [226; 129; 159];                          (* U+205F *)
    [227; 128; 128];                          (* U+3000 *)
    [239; 187; 191] ])%nat.                   (* U+FEFF *)

(** The bytes are the encoding of one such character. *)
Definition isWhiteSpace (bytes : list Ascii.ascii) : bool :=
  bool_decide (nat_of_ascii <$> bytes ∈ whiteSpaceTable).

Arguments isWhiteSpace : simpl never.

(** [trimStart]: the white space at the front is dropped, one character
    of one, two or three bytes at a time. *)
Fixpoint trimStart (s : string) : string :=
  match s with
  | String a s1 =>
      if isWhiteSpace [a] then trimStart s1
      else match s1 with
           | String b s2 =>
               if isWhiteSpace [a; b] then trimStart s2
               else match s2 with
                    | String c s3 =>
                        if isWhiteSpace [a; b; c] then trimStart s3 else s
                    | EmptyString => s
                    end
           | EmptyString => s
           end
  | EmptyString => EmptyString
  end.

(** [trimEnd]: the string is cut where only white space follows. *)
Fixpoint trimEnd (s : string) : string :=
  match s with
  | String a s1 => if falsy (trimStart s) then EmptyString else String a (trimEnd s1)
  | EmptyString => EmptyString
  end.

Definition trim (s : string) : string := trimEnd (trimStart s).

(** The three arrow functions that [handleGenerate] maps over [prev]. *)
Inductive ScreensUpdater : Type :=
| MarkLoading                       (* { ...s, loading: true, html: null } *)
| ApplyPreview (preview : string)   (* { ...s, html: response.html_preview, loading: false } *)
| ClearLoading.                     (* { ...s, loading: false } *)

Definition updateScreen (u : ScreensUpdater) (s : ScreenData) : ScreenData :=
  match u with
  | MarkLoading => mkScreen (id s) (name s) None (w s) (h s) (x s) (y s) true
  | ApplyPreview preview => mkScreen (id s) (name s) (Some preview) (w s) (h s) (x s) (y s) false
  | ClearLoading => mkScreen (id s) (name s) (html s) (w s) (h s) (x s) (y s) false
  end.

Definition applyUpdater (u : ScreensUpdater) (prev : list ScreenData) : list ScreenData :=
  updateScreen u <$> prev.

(** What the handler does, in program order. *)
Inductive Action : Type :=
| SetScreens (u : ScreensUpdater)
| SetCode (c : option string)
| GenerateComponent (p : string) (type : DeviceType)   (* await generateComponent(prompt, deviceType) *)
| SetTimeout (ms : Z) (u : ScreensUpdater)             (* setTimeout(() => setScreens(u), ms) *)
| ConsoleError
| Alert (msg : string).

(** The body after the [await], by the outcome of the request. *)
Definition afterAwait (o : Api.Outcome) : list Action :=
  match o with
  | Api.Resolved response =>
      if Api.success response
      then [ SetCode (Some (Api.code response));
             SetTimeout 100 (ApplyPreview (Api.html_preview response)) ]
      else [ SetScreens ClearLoading;
             Alert "Generation failed (no success flag)." ]
  | Api.Rejected =>
      [ ConsoleError;
        Alert "Failed to generate component. Please try again.";
        SetScreens ClearLoading ]
  end.

(** The update that ends the run: the response is applied, or the
    loading flags are cleared. *)
Definition settlement (o : Api.Outcome) : ScreensUpdater :=
  match o with
  | Api.Resolved response =>
      if Api.success response then ApplyPreview (Api.html_preview response)
      else ClearLoading
  | Api.Rejected => ClearLoading
  end.

(** [handleGenerate]: the actions of one run. The only request of the run
    is request number 0 of the environment. *)
Definition handleGenerate (st : State) (env : Api.Env) : list Action :=
  if falsy (trim (prompt st)) then []
  else [ SetScreens MarkLoading;
         SetCode None;
         GenerateComponent (prompt st) (deviceType st) ]
       ++ afterAwait (env 0%nat).

(** The effect of one action on the React state. The callback of a timer
    runs when the timer fires; in a run taken on its own nothing happens in
    between. *)
Definition step (st : State) (a : Action) : State :=
  match a with
  | SetScreens u => setScreens (applyUpdater u) st
  | SetCode c => setCode c st
  | SetTimeout _ u => setScreens (applyUpdater u) st
  | GenerateComponent _ _ | ConsoleError | Alert _ => st
  end.

Definition exec (tr : list Action) (st : State) : State := foldl step st tr.

(** The state after a whole run of [handleGenerate]. *)
Definition runGenerate (st : State) (env : Api.Env) : State :=
  exec (handleGenerate st env) st.

End Page.

Import Page.

(** ** Lifecycle status, read off a screen record

    The record has no status field: a screen is Generating while [loading]
    is set, Ready when it is not loading and carries content, and without
    content otherwise (Pending and Failed are the same record). *)

Module Status.

Definition generating (s : ScreenData) : bool := loading s.

Definition ready (s : ScreenData) : bool :=
  negb (loading s) && bool_decide (is_Some (html s)).

Definition failed (s : ScreenData) : bool :=
  negb (loading s) && bool_decide (html s = None).

End Status.

(** ** The observable log of a run

    Each registry update is compared with the registry before it: the
    screens whose [loading] flag rises enter Generating, those whose flag
    falls have had a response applied; the elements of one update are
    visited in index order, as [Array.prototype.map] does. *)

Module Log.

Inductive Obs : Type :=
| Generating (i : nat)   (* screen i starts loading *)
| Issued                 (* a request leaves the page *)
| Settled (i : nat).     (* screen i stops loading *)

#[export] Instance Obs_eq_dec : EqDecision Obs.
Proof. solve_decision. Defined.

(** Indices, counted from [k], whose flag is [from] before the update and
    [negb from] after it. *)
Fixpoint flips (from : bool) (k : nat) (before after : list ScreenData) : list nat :=
  match before, after with
  | b :: before', a :: after' =>
      (if bool_decide (loading b = from) && bool_decide (loading a = negb from)
       then [k] else [])
      ++ flips from (S k) before' after'
  | _, _ => []
  end.

Definition ofUpdate (before after : list ScreenData) : list Obs :=
  (Generating <$> flips false 0 before after) ++ (Settled <$> flips true 0 before after).

Fixpoint observe (tr : list Action) (scr : list ScreenData) : list Obs :=
  match tr with
  | [] => []
  | SetScreens u :: tr' | SetTimeout _ u :: tr' =>
      ofUpdate scr (applyUpdater u scr) ++ observe tr' (applyUpdater u scr)
  | GenerateComponent _ _ :: tr' => Issued :: observe tr' scr
  | _ :: tr' => observe tr' scr
  end.

(** The order in which screens entered Generating. *)
Definition generatingOrder (log : list Obs) : list nat :=
  omap (λ o, match o with Generating i => Some i | _ => None end) log.

(** The number of requests issued. *)
Definition requests (log : list Obs) : nat :=
  length (filter (λ o, o = Issued) log).

(** The log of a run of [handleGenerate]. *)
Definition ofRun (st : State) (env : Api.Env) : list Obs :=
  observe (handleGenerate st env) (screens st).

End Log.

(** ** The statements of the specification

    These definitions follow the words of the specification; they are what
    the program is compared with. *)

Module Spec.

(** Section 4.2: width, height and gap are fixed per device class. *)
Record Presets : Type := mkPresets {
  width : DeviceType → Z;
  height : DeviceType → Z;
  gap : DeviceType → Z
}.

(** [plan(index, deviceClass)]: x = index * (w + g), y = 0. *)
Definition plan (c : Presets) (index : nat) (type : DeviceType) : Z * Z * Z * Z :=
  (Z.of_nat index * (width c type + gap c type), 0, width c type, height c type).

(** The mobile preset of the scenario: w = 400, h = 812, g = 30. *)
Definition mobilePreset (c : Presets) : Prop :=
  width c mobile = 400 ∧ height c mobile = 812 ∧ gap c mobile = 30.

(** Every constructed screen gets the geometry of [plan]. *)
Definition plannedConstruction : Prop :=
  ∃ c, mobilePreset c ∧
    ∀ st now, geometry (newScreen st now) = plan c (length (screens st)) (deviceType st).

(** Strictly increasing, pairwise disjoint x-intervals [x, x+w) among the
    first n constructed screens of a registry. *)
Definition nonOverlapping (reg : list ScreenData) : Prop :=
  ∀ i j a b, (i < j)%nat → reg !! i = Some a → reg !! j = Some b →
    x a < x b ∧ x a + w a ≤ x b.

(** Sections 4.1 and 8, offset round trip: for every world point, a
    pair of JS numbers, [toWorld(toRender(p)) == p]. *)
Definition exactInverses : Prop :=
  ∀ p : Point, Number.representable p.1 → Number.representable p.2 →
    Number.toRender p ≫= Number.toWorld = Some p.

(** Section 4.4, phase 2, as a log: Generating 0, request, response
    applied to 0, Generating 1, request, ... *)
Definition sequentialLog (n : nat) : list Log.Obs :=
  flat_map (λ i, [Log.Generating i; Log.Issued; Log.Settled i]) (seq 0 n).

(** The part of a log that precedes its k-th request (counted from 0), if
    the log has that many requests. *)
Fixpoint beforeRequest (k : nat) (log : list Log.Obs) : option (list Log.Obs) :=
  match log with
  | [] => None
  | Log.Issued :: log' =>
      match k with
      | O => Some []
      | S k' => cons Log.Issued <$> beforeRequest k' log'
      end
  | o :: log' => cons o <$> beforeRequest k log'
  end.

(** Sections 5 and 8, sequencing: the screens enter Generating in the
    order 0, ..., n-1, and the request of screen i, the i-th of the run, is
    issued after the response of screen i-1 has been applied. *)
Definition sequentialOrder (n : nat) (log : list Log.Obs) : Prop :=
  Log.generatingOrder log = seq 0 n
  ∧ ∀ i, (0 < i < n)%nat →
      ∃ pre, beforeRequest i log = Some pre ∧ Log.Settled (i - 1) ∈ pre.

Definition sequential (st : State) (env : Api.Env) : Prop :=
  sequentialOrder (length (screens st)) (Log.ofRun st env).

(** Section 8, failure isolation: the request of screen k fails, those of
    the later screens succeed; the later screens are Ready with their
    content and screen k is Failed without content. *)
Definition failureIsolated (st : State) (env : Api.Env) (k : nat) : Prop :=
  (k < length (screens st))%nat →
  Api.failed (env k) = true →
  (∀ j, (k < j < length (screens st))%nat → Api.failed (env j) = false) →
  (∀ j, (k < j < length (screens st))%nat →
     ∃ s, screens (runGenerate st env) !! j = Some s ∧ Status.ready s = true)
  ∧ (∃ s, screens (runGenerate st env) !! k = Some s ∧ Status.failed s = true).

(** Section 4.4, phase 1: a failed first request leaves the registry as it
    was. *)
Definition abortsUnchanged (st : State) (env : Api.Env) : Prop :=
  Api.failed (env 0%nat) = true → screens (runGenerate st env) = screens st.

(** Section 8, device-change gating. *)
Definition gatedWhileGenerating (type : DeviceType) (st : State) : Prop :=
  Exists (λ s, loading s = true) (screens st) →
  geometry <$> screens (handleDeviceChange type st) = geometry <$> screens st.

Definition replannedWhenIdle (c : Presets) (type : DeviceType) (st : State) : Prop :=
  Forall (λ s, loading s = false) (screens st) →
  ∀ i s, screens (handleDeviceChange type st) !! i = Some s → geometry s = plan c i type.

End Spec.

(** ** The viewport controller *)

Module Viewport.

Record ViewportState : Type := mkViewport {
  scale : Q;
  originX : Q;
  originY : Q
}.

(** The state the [TransformWrapper] props of Canvas.tsx configure. *)
Definition initial : ViewportState :=
  {| scale := initialScale config;
     originX := initialPositionX config;
     originY := initialPositionY config |}.

Definition inRange (s : Q) : Prop := (minScale config <= s ∧ s <= maxScale config)%Q.

(** Modelled from the spec: the operations [zoomIn], [zoomOut] and
    [resetTransform] belong to the pan/zoom library, whose code is not part
    of the sources; only the props of Canvas.tsx are. Section 4.5: the
    scale is multiplied by a fixed step and clamped to [minScale, maxScale];
    reset restores the configured initial values. *)
Definition clampScale (s : Q) : Q :=
  Qmax (minScale config) (Qmin (maxScale config) s).

Definition zoomBy (factor s : Q) : Q := clampScale (s * factor).

Definition zoomIn (s : Q) : Q := zoomBy (1 + wheelStep config) s.

Definition zoomOut (s : Q) : Q := zoomBy (1 - wheelStep config) s.

Definition reset (v : ViewportState) : ViewportState := initial.

End Viewport.

(** ** Sample inputs *)

Module Sample.

Definition okResponse : Api.Response :=
  Api.mkResponse true "<App/>" "<html>app</html>".

(** Every request succeeds. *)
Definition allSucceed : Api.Env := λ _, Api.Resolved okResponse.

(** The first request throws, every later one succeeds. *)
Definition firstFails : Api.Env :=
  λ k, match k with O => Api.Rejected | S _ => Api.Resolved okResponse end.

(** The initial page after one click on "add screen". *)
Definition twoScreens : State :=
  setPrompt "Budget tracker app" (handleAddScreen 17 initialState).

(** A page whose only screen shows a preview from an earlier run. *)
Definition withPreview : State :=
  runGenerate (setPrompt "Login screen" initialState) allSucceed.

(** The page while the request of a run is awaited. *)
Definition awaiting : State :=
  exec [SetScreens MarkLoading; SetCode None] (setPrompt "Login screen" initialState).

(** Three mobile screens: the device is switched, then two screens are
    added. *)
Definition threeMobile : State :=
  handleAddScreen 18 (handleAddScreen 17 (handleDeviceChange mobile initialState)).

(** A prompt that is one no-break space, U+00A0. *)
Definition nbsp : string :=
  String (ascii_of_nat 194) (String (ascii_of_nat 160) EmptyString).

End Sample.

(** ** ScreenFrame.tsx: what a frame shows *)

Module ScreenFrame.

(** The three branches of the content area: the spinner, the iframe with
    its [srcDoc], the "No preview available" text. *)
Inductive Content : Type :=
| Spinner
| Iframe (srcDoc : string)
| NoPreview.

(** [loading ? spinner : preview ? iframe : text]; the empty string is
    falsy. *)
Definition content (p : ScreenFrameProps) : Content :=
  if f_loading p then Spinner
  else match f_preview p with
       | Some EmptyString | None => NoPreview
       | Some srcDoc => Iframe srcDoc
       end.

End ScreenFrame.

(** ** Canvas.tsx: the canvas surface and the zoom label *)

Module Surface.

(** The side of the [w-[5000px] h-[5000px]] surface. *)
Definition canvasSize : Z := 5000.

(** [screens.map((screen) => <ScreenFrame ... />)]. *)
Definition frames (reg : list ScreenData) : list ScreenFrameProps := frameProps <$> reg.

(** The rectangle of a frame lies on the surface. *)
Definition onSurface (p : ScreenFrameProps) : bool :=
  (0 <=? f_x p) && (f_x p + f_width p <=? canvasSize)
  && (0 <=? f_y p) && (f_y p + f_height p <=? canvasSize).

(** JS [Math.round] of a rational: the nearest integer, a half goes
    up. *)
Definition round (q : Q) : Z := Qfloor (q + (1 # 2)).

(** [rest.state || rest.transformState || { scale: 1 }], then
    [Math.round(state.scale * 100)]: the number before the percent sign. *)
Definition zoomLabel (state transformState : option Viewport.ViewportState) : Z :=
  let shown :=
    match state, transformState with
    | Some v, _ => Viewport.scale v
    | None, Some v => Viewport.scale v
    | None, None => 1%Q
    end in
  round (shown * 100).

End Surface.

(** ** CodePanel.tsx *)

Module CodePanel.

(** [!code] for a [string | null]. *)
Definition noCode (code : option string) : bool :=
  match code with
  | None | Some EmptyString => true
  | Some _ => false
  end.

(** What [handleCopy] does, in program order. *)
Inductive Action : Type :=
| WriteText (text : string)           (* navigator.clipboard.writeText(code) *)
| SetCopied (b : bool)
| SetTimeout (ms : Z) (b : bool).     (* setTimeout(() => setCopied(b), ms) *)

Definition handleCopy (code : option string) : list Action :=
  match code with
  | None | Some EmptyString => []
  | Some text => [ WriteText text; SetCopied true; SetTimeout 2000 false ]
  end.

(** The two renderings of the panel: the "No Code Generated" card, or the
    code with its copy button ([disabled={copied}]). *)
Inductive View : Type :=
| NoCodeGenerated
| GeneratedCode (shown : string) (copyDisabled : bool).

Definition view (code : option string) (copied : bool) : View :=
  match code with
  | None | Some EmptyString => NoCodeGenerated
  | Some text => GeneratedCode text copied
  end.

(** The panel in the event loop: its [copied] state, the clipboard and
    the number of reset timers that are running. *)
Record Panel : Type := mkPanel {
  copied : bool;
  clipboard : option string;
  resets : nat
}.

Definition mounted : Panel := mkPanel false None 0.

Definition perform (pn : Panel) (a : Action) : Panel :=
  match a with
  | WriteText text => mkPanel (copied pn) (Some text) (resets pn)
  | SetCopied b => mkPanel b (clipboard pn) (resets pn)
  | SetTimeout _ _ => mkPanel (copied pn) (clipboard pn) (S (resets pn))
  end.

Inductive Event : Type :=
| ClickCopy (code : option string)   (* a click while the panel is rendered with [code] *)
| ResetFires.                        (* a timer callback runs: setCopied(false) *)

(** The copy button exists only in the code view and is dead while
    [copied]. *)
Definition fire (pn : Panel) (ev : Event) : Panel :=
  match ev with
  | ClickCopy code =>
      match view code (copied pn) with
      | GeneratedCode _ false => foldl perform pn (handleCopy code)
      | _ => pn
      end
  | ResetFires =>
      match resets pn with
      | O => pn
      | S n => mkPanel false (clipboard pn) n
      end
  end.

Definition reach (evs : list Event) : Panel := foldl fire mounted evs.

End CodePanel.

(** ** The page in its event loop

    One handler runs at a time; a run of [handleGenerate] is cut at its
    [await], and the callback of a timer runs when the timer fires, so other
    handlers may run in between. *)

Module App.

(** [disabled={screens.some(s => s.loading) || !prompt.trim()}]. *)
Definition generateDisabled (st : State) : bool :=
  existsb loading (screens st) || falsy (trim (prompt st)).

(** Every character is one that [trim] removes. *)
Fixpoint allWhiteSpace (s : string) : bool :=
  match s with
  | EmptyString => true
  | String a s1 =>
      if isWhiteSpace [a] then allWhiteSpace s1
      else match s1 with
           | String b s2 =>
               if isWhiteSpace [a; b] then allWhiteSpace s2
               else match s2 with
                    | String c s3 => isWhiteSpace [a; b; c] && allWhiteSpace s3
                    | EmptyString => false
                    end
           | EmptyString => false
           end
  end.

(** The part of [handleGenerate] that runs before the [await]. *)
Definition beforeAwait (st : State) : list Action :=
  if falsy (trim (prompt st)) then []
  else [ SetScreens MarkLoading;
         SetCode None;
         GenerateComponent (prompt st) (deviceType st) ].

(** The page together with what is pending around it. *)
Record World : Type := mkWorld {
  page : State;
  outstanding : nat;                       (* requests not yet answered *)
  sent : list (string * DeviceType);       (* the requests issued so far *)
  timers : list ScreensUpdater;            (* callbacks of running timers, oldest first *)
  alerts : list string                     (* the alerts shown so far *)
}.

Definition initialWorld : World := mkWorld initialState 0 [] [] [].

Definition withPage (f : State → State) (wd : World) : World :=
  mkWorld (f (page wd)) (outstanding wd) (sent wd) (timers wd) (alerts wd).

(** One action of a handler. *)
Definition perform (wd : World) (a : Action) : World :=
  match a with
  | SetScreens u => withPage (setScreens (applyUpdater u)) wd
  | SetCode c => withPage (setCode c) wd
  | GenerateComponent p type =>
      mkWorld (page wd) (S (outstanding wd)) (sent wd ++ [(p, type)]) (timers wd) (alerts wd)
  | SetTimeout _ u =>
      mkWorld (page wd) (outstanding wd) (sent wd) (timers wd ++ [u]) (alerts wd)
  | ConsoleError => wd
  | Alert msg =>
      mkWorld (page wd) (outstanding wd) (sent wd) (timers wd) (alerts wd ++ [msg])
  end.

Definition performAll (wd : World) (tr : list Action) : World := foldl perform wd tr.

(** What can happen to the page. *)
Inductive Event : Type :=
| ChangePrompt (p : string)                 (* onChange of the prompt input *)
| PressEnter                                (* onKeyDown: e.key === "Enter" && handleGenerate() *)
| ClickGenerate                             (* the button, dead while [disabled] *)
| Settle (o : Api.Outcome)                  (* an awaited request resolves or throws *)
| TimerFires                                (* the oldest timer callback runs *)
| ChooseDevice (type : DeviceType)          (* sidebar: setDeviceType(type) *)
| ClickAddScreen (now : Z)                  (* sidebar: onAddScreen, at time [now] *)
| DragStop (k : nat) (rx ry : Z)            (* frame k reports a drag *)
| ResizeStop (k : nat) (rw rh rx ry : Z)    (* frame k reports a resize *)
| ToggleCode                                (* setShowCode(!showCode) *)
| ClickDownload.                            (* handleDownload *)

Definition toggleCode (st : State) : State :=
  mkState (deviceType st) (projectName st) (theme st) (prompt st) (code st)
          (negb (showCode st)) (screens st).

(** The [onScreenUpdate] call of frame [k], if there is such a frame. *)
Definition report (k : nat) (call : ScreenData → string * PartialScreenData)
    (wd : World) : World :=
  match screens (page wd) !! k with
  | Some screen => withPage (handleScreenUpdate (call screen).1 (call screen).2) wd
  | None => wd
  end.

Definition fire (wd : World) (ev : Event) : World :=
  match ev with
  | ChangePrompt p => withPage (setPrompt p) wd
  | PressEnter => performAll wd (beforeAwait (page wd))
  | ClickGenerate =>
      if generateDisabled (page wd) then wd
      else performAll wd (beforeAwait (page wd))
  | Settle o =>
      match outstanding wd with
      | O => wd
      | S n =>
          performAll (mkWorld (page wd) n (sent wd) (timers wd) (alerts wd)) (afterAwait o)
      end
  | TimerFires =>
      match timers wd with
      | [] => wd
      | u :: rest =>
          mkWorld (setScreens (applyUpdater u) (page wd))
                  (outstanding wd) (sent wd) rest (alerts wd)
      end
  | ChooseDevice type => withPage (handleDeviceChange type) wd
  | ClickAddScreen now => withPage (handleAddScreen now) wd
  | DragStop k rx ry => report k (λ screen, onDragStop screen rx ry) wd
  | ResizeStop k rw rh rx ry => report k (λ screen, onResizeStop screen rw rh rx ry) wd
  | ToggleCode => withPage toggleCode wd
  | ClickDownload =>
      perform wd (Alert "Download functionality coming soon!")
  end.

Definition fireAll (wd : World) (evs : list Event) : World := foldl fire wd evs.

(** The world reached from a fresh page. *)
Definition reach (evs : list Event) : World := fireAll initialWorld evs.

(** The times of the "add screen" clicks, in order. *)
Definition addTimes (evs : list Event) : list Z :=
  omap (λ ev, match ev with ClickAddScreen now => Some now | _ => None end) evs.

(** All screens carry the same loading flag and the same preview, the
    empty preview counting as none. *)
Definition uniform (reg : list ScreenData) : Prop :=
  ∃ l c, Forall (λ s, loading s = l ∧ orNull (html s) = c) reg.

Definition isResize (ev : Event) : bool :=
  match ev with
  | ResizeStop _ _ _ _ _ => true
  | _ => false
  end.

End App.

(** * Properties *)

(** ** The registry under its handlers *)

Section Registry.

Implicit Types (st : State) (s : ScreenData) (reg : list ScreenData).

Lemma screens_setScreens f st : screens (setScreens f st) = f (screens st).
Proof. reflexivity. Qed.

Lemma setScreens_id f st : f (screens st) = screens st → setScreens f st = st.
Proof. destruct st as [? ? ? ? ? ? reg]; unfold setScreens; simpl. by intros ->. Qed.

Lemma updateById_other i data s : id s ≠ i → updateById i data s = s.
Proof. intros Hne. unfold updateById. by case_decide. Qed.

Lemma updateById_match i data s : id s = i → updateById i data s = spread s data.
Proof. intros He. unfold updateById. by case_decide. Qed.

Lemma fmap_updateById_absent i data reg :
  Forall (λ s, id s ≠ i) reg → updateById i data <$> reg = reg.
Proof.
  induction 1 as [|s reg Hs _ IH]; [done|].
  rewrite fmap_cons, IH. f_equal. by apply updateById_other.
Qed.

(** C9. [handleScreenUpdate] keeps the length of the screen list, keeps
    at its position every screen whose id differs from the one given, puts
    the merged record at the position of a screen whose id matches, and
    returns the state it was given when no screen has that id. *)
Theorem handleScreenUpdate_frame (i : string) (data : PartialScreenData) (st : State) :
  length (screens (handleScreenUpdate i data st)) = length (screens st)
  ∧ (∀ k s, screens st !! k = Some s → id s ≠ i →
       screens (handleScreenUpdate i data st) !! k = Some s)
  ∧ (∀ k s, screens st !! k = Some s → id s = i →
       screens (handleScreenUpdate i data st) !! k = Some (spread s data))
  ∧ (Forall (λ s, id s ≠ i) (screens st) → handleScreenUpdate i data st = st).
Proof.
  unfold handleScreenUpdate. rewrite screens_setScreens.
  split; [apply length_fmap|]. split; [|split].
  - intros k s Hk Hne. rewrite list_lookup_fmap, Hk. simpl.
    by rewrite updateById_other.
  - intros k s Hk He. rewrite list_lookup_fmap, Hk. simpl.
    by rewrite updateById_match.
  - intros Habs. apply setScreens_id. by apply fmap_updateById_absent.
Qed.

Lemma handleScreenUpdate_frame_witness :
  screens (handleScreenUpdate "screen-17" (mkPartial None None None None None (Some 300) (Some 40) None)
             Sample.twoScreens) !! 0%nat
  = Some (mkScreen "main" "App Screen" None 1024 768 0 0 false)
  ∧ screens (handleScreenUpdate "screen-17" (mkPartial None None None None None (Some 300) (Some 40) None)
               Sample.twoScreens) !! 1%nat
    = Some (mkScreen "screen-17" "Screen 2" None 1024 768 300 40 false)
  ∧ handleScreenUpdate "nobody" (mkPartial None None None None None (Some 300) (Some 40) None)
      Sample.twoScreens = Sample.twoScreens.
Proof.
  pose proof (handleScreenUpdate_frame "screen-17"
    (mkPartial None None None None None (Some 300) (Some 40) None) Sample.twoScreens)
    as (_ & Hother & Hmatch & _).
  pose proof (handleScreenUpdate_frame "nobody"
    (mkPartial None None None None None (Some 300) (Some 40) None) Sample.twoScreens)
    as (_ & _ & _ & Habsent).
  split; [|split].
  - apply (Hother 0%nat); [reflexivity | discriminate].
  - apply (Hmatch 1%nat (mkScreen "screen-17" "Screen 2" None 1024 768 70 70 false));
      reflexivity.
  - apply Habsent. repeat constructor; discriminate.
Defined.

End Registry.

(** ** Coordinate space *)

Section CoordinateSpace.

Lemma round64_exact (z : Z) : Z.abs z ≤ 2 ^ 53 → Number.round64 z = Some z.
Proof. intros Hz. unfold Number.round64. by rewrite (proj2 (Z.leb_le _ _) Hz). Qed.

Lemma add_offset_safe (c : Z) :
  Number.safe c → Number.add c centerOffset = Some (c + centerOffset).
Proof.
  unfold Number.safe, Number.add, centerOffset. intros Hc.
  apply round64_exact. change (2 ^ 53) with 9007199254740992 in *. lia.
Qed.

Lemma sub_offset_safe (c : Z) :
  Number.safe c → Number.sub c centerOffset = Some (c - centerOffset).
Proof.
  unfold Number.safe, Number.sub, centerOffset. intros Hc.
  apply round64_exact. change (2 ^ 53) with 9007199254740992 in *. lia.
Qed.

Lemma round64_of_safe (c : Z) : Number.safe c → Number.round64 c = Some c.
Proof.
  unfold Number.safe. intros Hc. apply round64_exact.
  change (2 ^ 53) with 9007199254740992 in *. lia.
Qed.

(** C7, as the specification has it, fails: the additions are those of
    floats and round. The world point (2^53 - 1, 0), a pair of floats, is
    rendered at (2^53 + 2500, 2500) and converts back to (2^53, 0). *)
Lemma offset_round_trip_rounds :
  Number.representable (2 ^ 53 - 1) ∧ Number.representable 0
  ∧ Number.toRender (2 ^ 53 - 1, 0) = Some (9007199254743492, 2500)
  ∧ Number.toRender (2 ^ 53 - 1, 0) ≫= Number.toWorld = Some (9007199254740992, 0)
  ∧ ¬ Spec.exactInverses.
Proof.
  split; [reflexivity|]. split; [reflexivity|].
  split; [reflexivity|]. split; [reflexivity|].
  intros Hex. specialize (Hex (2 ^ 53 - 1, 0) eq_refl eq_refl).
  vm_compute in Hex. discriminate Hex.
Qed.

(** C7, amended. For a point whose coordinates are integers of
    magnitude at most 2^53 - 2500, adding the offset and subtracting it are
    exact: they are the integer sum and difference, and each undoes the
    other. So the position such a screen is rendered at converts back to
    the stored one, and after a drag or resize report at such a position the
    registry holds the reported position minus the offset, which renders
    where it was reported. *)
Theorem offset_round_trip_safe_range (p : Point) :
  Number.safe p.1 → Number.safe p.2 →
  Number.toRender p = Some (toRender p)
  ∧ Number.toWorld p = Some (toWorld p)
  ∧ Number.toRender p ≫= Number.toWorld = Some p
  ∧ Number.toWorld p ≫= Number.toRender = Some p
  ∧ (∀ screen, (x screen, y screen) = p →
       Number.toRender p = Some (f_x (frameProps screen), f_y (frameProps screen))
       ∧ Number.toWorld (f_x (frameProps screen), f_y (frameProps screen))
         = Some (x screen, y screen))
  ∧ (∀ screen,
       let s' := updateById (onDragStop screen p.1 p.2).1 (onDragStop screen p.1 p.2).2
                            screen in
       Number.toWorld p = Some (x s', y s')
       ∧ Number.toRender (x s', y s') = Some p)
  ∧ (∀ screen rw rh,
       let s' := updateById (onResizeStop screen rw rh p.1 p.2).1
                            (onResizeStop screen rw rh p.1 p.2).2 screen in
       Number.toWorld p = Some (x s', y s')
       ∧ Number.toRender (x s', y s') = Some p
       ∧ (w s', h s') = (rw, rh)).
Proof.
  destruct p as [px py]. simpl. intros Hx Hy.
  assert (Hr : Number.toRender (px, py) = Some (px + centerOffset, py + centerOffset)).
  { unfold Number.toRender. simpl. by rewrite !add_offset_safe. }
  assert (Hw : Number.toWorld (px, py) = Some (px - centerOffset, py - centerOffset)).
  { unfold Number.toWorld. simpl. by rewrite !sub_offset_safe. }
  assert (Hrw : Number.toWorld (px + centerOffset, py + centerOffset) = Some (px, py)).
  { unfold Number.toWorld, Number.sub. simpl.
    replace (px + centerOffset - centerOffset) with px by lia.
    replace (py + centerOffset - centerOffset) with py by lia.
    by rewrite !round64_of_safe. }
  assert (Hwr : Number.toRender (px - centerOffset, py - centerOffset) = Some (px, py)).
  { unfold Number.toRender, Number.add. simpl.
    replace (px - centerOffset + centerOffset) with px by lia.
    replace (py - centerOffset + centerOffset) with py by lia.
    by rewrite !round64_of_safe. }
  split; [exact Hr|]. split; [exact Hw|].
  split; [by rewrite Hr|]. split; [by rewrite Hw|].
  split; [|split].
  - intros screen Hp. injection Hp as -> ->. split; [exact Hr|exact Hrw].
  - intros screen. simpl. rewrite updateById_match by reflexivity. simpl.
    split; [exact Hw|exact Hwr].
  - intros screen rw rh. simpl. rewrite updateById_match by reflexivity. simpl.
    split; [exact Hw|]. split; [exact Hwr|reflexivity].
Qed.

Lemma offset_round_trip_safe_range_witness :
  Number.toRender (860, 0) ≫= Number.toWorld = Some (860, 0)
  ∧ Number.toRender (-2500, 9007199254738492) ≫= Number.toWorld
    = Some (-2500, 9007199254738492).
Proof.
  split.
  - refine (proj1 (proj2 (proj2 (offset_round_trip_safe_range (860, 0) _ _))));
      vm_compute; discriminate.
  - refine (proj1 (proj2 (proj2
              (offset_round_trip_safe_range (-2500, 9007199254738492) _ _))));
      vm_compute; discriminate.
Defined.

End CoordinateSpace.

(** ** Layout of the screens *)

Section Layout.

Implicit Types (st : State) (s : ScreenData) (type : DeviceType).

Lemma addWidth_deviceSize type : addWidth type = (deviceSize type).1.
Proof. by destruct type. Qed.

Lemma deviceSize_wide type : 375 ≤ (deviceSize type).1.
Proof. destruct type; simpl; lia. Qed.

Lemma addScreens_snoc nows now st :
  addScreens (nows ++ [now]) st = handleAddScreen now (addScreens nows st).
Proof. unfold addScreens. by rewrite foldl_snoc. Qed.

(** The registry built on a fresh page: the first screen sits at x = 0,
    the screen of index i > 0 at x = 50 + 20 i, all with the width of the
    device class. *)
Lemma constructedRegistry_shape type nows :
  deviceType (addScreens nows (handleDeviceChange type initialState)) = type
  ∧ length (constructedRegistry type nows) = S (length nows)
  ∧ ∀ i s, constructedRegistry type nows !! i = Some s →
      w s = (deviceSize type).1
      ∧ x s = (if decide (i = 0%nat) then 0 else 50 + Z.of_nat i * 20).
Proof.
  unfold constructedRegistry.
  induction nows as [|now nows (IHd & IHl & IHs)] using rev_ind.
  - split; [done|]. split; [done|]. intros [|i] s Hs; [|done].
    injection Hs as <-. done.
  - rewrite addScreens_snoc. unfold handleAddScreen at 1 2 3.
    rewrite screens_setScreens. split; [exact IHd|]. split.
    + by rewrite length_app, length_app, IHl.
    + intros i s [[Hi Hs]|[Hi Hs]]%lookup_snoc_Some; [by apply IHs|].
      subst s. simpl. rewrite IHd, addWidth_deviceSize. split; [done|].
      rewrite IHl in Hi. subst i. rewrite IHl. case_decide; [lia|done].
Qed.

(** C4, as the specification has it, fails: the second screen built on a
    mobile page lies at (70, 70) and is 375 wide, where [plan] puts it at
    (430, 0) with width 400; three mobile screens lie at x = 0, 70, 90. *)
Lemma construction_not_planned :
  geometry (newScreen (handleDeviceChange mobile initialState) 17) = (70, 70, 375, 812)
  ∧ geometry <$> screens Sample.threeMobile
    = [(0, 0, 375, 812); (70, 70, 375, 812); (90, 90, 375, 812)]
  ∧ ¬ Spec.plannedConstruction.
Proof.
  split; [reflexivity|]. split; [reflexivity|].
  intros (c & (Hw & Hh & Hg) & Hall).
  specialize (Hall (handleDeviceChange mobile initialState) 17).
  assert (E : geometry (newScreen (handleDeviceChange mobile initialState) 17)
              = (70, 70, 375, 812)) by reflexivity.
  rewrite E in Hall. unfold Spec.plan in Hall. simpl in Hall.
  rewrite Hw in Hall. discriminate Hall.
Qed.

(** C4, amended. [handleAddScreen] appends one screen; with n screens
    already there it lies at x = y = 50 + 20 n, and its size is that of the
    device class: 375 x 812 (mobile), 768 x 1024 (tablet), 1024 x 768
    (web). *)
Theorem handleAddScreen_geometry (now : Z) (st : State) :
  screens (handleAddScreen now st) = screens st ++ [newScreen st now]
  ∧ screens (handleAddScreen now st) !! length (screens st) = Some (newScreen st now)
  ∧ geometry (newScreen st now)
    = (50 + 20 * Z.of_nat (length (screens st)),
       50 + 20 * Z.of_nat (length (screens st)),
       match deviceType st with mobile => 375 | tablet => 768 | web => 1024 end,
       match deviceType st with mobile => 812 | tablet => 1024 | web => 768 end).
Proof.
  split; [reflexivity|]. split.
  - unfold handleAddScreen. rewrite screens_setScreens.
    apply list_lookup_middle. done.
  - unfold geometry, newScreen. simpl.
    rewrite (Z.mul_comm _ 20). by destruct (deviceType st).
Qed.

(** C5, as the specification has it, fails: the two screens of a mobile
    page lie at x = 0 and x = 70 and are 375 wide, so [0, 375) and
    [70, 445) meet. *)
Lemma constructed_screens_overlap :
  (λ s, (x s, x s + w s)) <$> constructedRegistry mobile [17] = [(0, 375); (70, 445)]
  ∧ ¬ Spec.nonOverlapping (constructedRegistry mobile [17]).
Proof.
  split; [reflexivity|]. intros Hno.
  destruct (Hno 0%nat 1%nat (mkScreen "main" "App Screen" None 375 812 0 0 false)
              (mkScreen "screen-17" "Screen 2" None 375 812 70 70 false))
    as [_ Hdisj]; [lia|reflexivity|reflexivity|].
  simpl in Hdisj. lia.
Qed.

(** C5, amended. On a page of at most ten screens, the x coordinates
    increase strictly with the index, and the x-intervals [x, x+w) of any
    two screens meet: the later screen starts inside the earlier one. *)
Theorem constructed_increasing_overlapping (type : DeviceType) (nows : list Z) :
  (length (constructedRegistry type nows) ≤ 10)%nat →
  ∀ i j a b, (i < j)%nat →
    constructedRegistry type nows !! i = Some a →
    constructedRegistry type nows !! j = Some b →
    x a < x b ∧ x b < x a + w a.
Proof.
  intros Hlen i j a b Hij Ha Hb.
  destruct (constructedRegistry_shape type nows) as (_ & _ & Hshape).
  destruct (Hshape i a Ha) as [Hwa Hxa], (Hshape j b Hb) as [_ Hxb].
  apply lookup_lt_Some in Hb.
  pose proof (deviceSize_wide type).
  rewrite Hwa, Hxa, Hxb. repeat case_decide; lia.
Qed.

Lemma constructed_increasing_overlapping_witness :
  x (mkScreen "main" "App Screen" None 375 812 0 0 false)
  < x (mkScreen "screen-18" "Screen 3" None 375 812 90 90 false)
  ∧ x (mkScreen "screen-18" "Screen 3" None 375 812 90 90 false)
    < x (mkScreen "main" "App Screen" None 375 812 0 0 false)
      + w (mkScreen "main" "App Screen" None 375 812 0 0 false).
Proof.
  apply (constructed_increasing_overlapping mobile [17; 18]) with (i := 0%nat) (j := 2%nat).
  - simpl. lia.
  - lia.
  - reflexivity.
  - reflexivity.
Defined.

(** C6, as the specification has it, fails on both counts: while the
    request is awaited a switch to mobile resizes the loading screen, and on
    an idle page the second screen keeps y = 70 where [plan] has y = 0. *)
Lemma device_change_not_gated :
  geometry <$> screens Sample.awaiting = [(0, 0, 1024, 768)]
  ∧ geometry <$> screens (handleDeviceChange mobile Sample.awaiting) = [(0, 0, 375, 812)]
  ∧ ¬ Spec.gatedWhileGenerating mobile Sample.awaiting
  ∧ geometry <$> screens (handleDeviceChange mobile Sample.twoScreens)
    = [(0, 0, 375, 812); (70, 70, 375, 812)]
  ∧ ∀ c, ¬ Spec.replannedWhenIdle c mobile Sample.twoScreens.
Proof.
  split; [reflexivity|]. split; [reflexivity|]. split; [|split; [reflexivity|]].
  - intros Hg. unfold Spec.gatedWhileGenerating in Hg.
    assert (Hex : Exists (λ s, loading s = true) (screens Sample.awaiting)).
    { apply Exists_cons_hd. reflexivity. }
    specialize (Hg Hex). discriminate Hg.
  - intros c Hr. unfold Spec.replannedWhenIdle in Hr.
    assert (Hidle : Forall (λ s, loading s = false) (screens Sample.twoScreens)).
    { repeat constructor. }
    specialize (Hr Hidle 1%nat
      (mkScreen "screen-17" "Screen 2" None 375 812 70 70 false) eq_refl).
    unfold Spec.plan, geometry in Hr. simpl in Hr. discriminate Hr.
Qed.

(** C6, amended. [handleDeviceChange] is not gated on the loading flags:
    in every state it records the device class and gives every screen, at
    its position, the width and height of that class (375 x 812, 768 x 1024,
    1024 x 768), leaving x, y and all other fields as they were. *)
Theorem handleDeviceChange_resizes (type : DeviceType) (st : State) :
  deviceType (handleDeviceChange type st) = type
  ∧ length (screens (handleDeviceChange type st)) = length (screens st)
  ∧ ∀ i s, screens st !! i = Some s →
      screens (handleDeviceChange type st) !! i
      = Some (mkScreen (id s) (name s) (html s)
                match type with mobile => 375 | tablet => 768 | web => 1024 end
                match type with mobile => 812 | tablet => 1024 | web => 768 end
                (x s) (y s) (loading s)).
Proof.
  unfold handleDeviceChange. rewrite screens_setScreens.
  split; [reflexivity|]. split; [apply length_fmap|].
  intros i s Hs. simpl. rewrite list_lookup_fmap, Hs. simpl.
  unfold resize. by destruct type.
Qed.

Lemma handleDeviceChange_resizes_witness :
  screens (handleDeviceChange tablet Sample.awaiting) !! 0%nat
  = Some (mkScreen "main" "App Screen" None 768 1024 0 0 true).
Proof.
  pose proof (handleDeviceChange_resizes tablet Sample.awaiting) as (_ & _ & Hall).
  apply (Hall 0%nat (mkScreen "main" "App Screen" None 1024 768 0 0 true)).
  reflexivity.
Defined.

End Layout.

(** ** The viewport *)

Section ViewportScale.

Import Viewport.

Lemma clampScale_inRange (s : Q) : inRange (clampScale s).
Proof.
  unfold inRange, clampScale. split.
  - apply Q.le_max_l.
  - apply Q.max_lub; [discriminate | apply Q.le_min_l].
Qed.

(** C8. The configured range is [0.4, 4] with step 0.1; a zoom step
    from a scale inside the range ends inside the range, whatever the
    factor the scale is multiplied by; reset gives scale 1 at
    (-2000, -2000). *)
Theorem scale_stays_in_range (s : Q) :
  inRange s →
  (minScale config, maxScale config, wheelStep config) = (4 # 10, 4 # 1, 1 # 10)%Q
  ∧ inRange (zoomIn s) ∧ inRange (zoomOut s)
  ∧ (∀ factor, inRange (zoomBy factor s))
  ∧ (∀ v, reset v = mkViewport 1 (-2000) (-2000))
  ∧ inRange (scale (reset (mkViewport s 0 0))).
Proof.
  intros _. split; [reflexivity|].
  split; [apply clampScale_inRange|]. split; [apply clampScale_inRange|].
  split; [intros factor; apply clampScale_inRange|]. split; [reflexivity|].
  split; discriminate.
Qed.

Lemma scale_stays_in_range_witness :
  inRange 4 ∧ inRange (zoomIn 4) ∧ inRange (zoomOut (4 # 10)).
Proof.
  assert (Hmax : inRange 4) by (split; discriminate).
  assert (Hmin : inRange (4 # 10)) by (split; discriminate).
  split; [exact Hmax|]. split.
  - exact (proj1 (proj2 (scale_stays_in_range 4 Hmax))).
  - exact (proj1 (proj2 (proj2 (scale_stays_in_range (4 # 10) Hmin)))).
Defined.

End ViewportScale.

(** ** The generation run *)

Section Generation.

Implicit Types (st : State) (s : ScreenData) (reg : list ScreenData) (env : Api.Env).

Lemma handleGenerate_trace st env :
  falsy (trim (prompt st)) = false →
  handleGenerate st env
  = [SetScreens MarkLoading; SetCode None; GenerateComponent (prompt st) (deviceType st)]
    ++ afterAwait (env 0%nat).
Proof. unfold handleGenerate. by intros ->. Qed.

(** The registry after the actions that follow the await. *)
Lemma exec_afterAwait o st :
  screens (exec (afterAwait o) st) = applyUpdater (settlement o) (screens st).
Proof. destruct o as [[[] ? ?]|]; reflexivity. Qed.

(** The registry after a run: every screen is marked loading with its
    content dropped, then the settling update is mapped over the list. *)
Lemma runGenerate_screens st env :
  falsy (trim (prompt st)) = false →
  screens (runGenerate st env)
  = applyUpdater (settlement (env 0%nat)) (applyUpdater MarkLoading (screens st)).
Proof.
  intros Hp. unfold runGenerate, exec. rewrite (handleGenerate_trace _ _ Hp).
  rewrite foldl_app. apply exec_afterAwait.
Qed.

Lemma runGenerate_lookup st env i s :
  falsy (trim (prompt st)) = false →
  screens st !! i = Some s →
  screens (runGenerate st env) !! i
  = Some (updateScreen (settlement (env 0%nat)) (updateScreen MarkLoading s)).
Proof.
  intros Hp Hs. rewrite (runGenerate_screens _ _ Hp). unfold applyUpdater.
  by rewrite !list_lookup_fmap, Hs.
Qed.

Lemma settlement_failed o : Api.failed o = true → settlement o = ClearLoading.
Proof. destruct o as [[[] ? ?]|]; simpl; congruence. Qed.

Lemma settlement_succeeded o :
  Api.failed o = false →
  ∃ response, o = Api.Resolved response ∧ Api.success response = true
              ∧ settlement o = ApplyPreview (Api.html_preview response).
Proof.
  destruct o as [[[] c p]|]; simpl; try discriminate.
  intros _. by eexists.
Qed.

(** *** The log of a run *)

Lemma flips_fmap_all from k f reg :
  Forall (λ s, loading s = from ∧ loading (f s) = negb from) reg →
  Log.flips from k reg (f <$> reg) = seq k (length reg).
Proof.
  intros Hall. revert k.
  induction Hall as [|s reg [Hb Ha] _ IH]; intros k; [done|].
  rewrite fmap_cons. simpl. rewrite IH.
  rewrite !bool_decide_eq_true_2 by done. done.
Qed.

Lemma flips_fmap_none from k f reg :
  Forall (λ s, loading s ≠ from ∨ loading (f s) ≠ negb from) reg →
  Log.flips from k reg (f <$> reg) = [].
Proof.
  intros Hall. revert k.
  induction Hall as [|s reg Hs _ IH]; intros k; [done|].
  rewrite fmap_cons. simpl. rewrite IH.
  destruct Hs as [Hs|Hs]; rewrite (bool_decide_eq_false_2 _ Hs);
    by rewrite ?andb_false_r.
Qed.

Lemma ofUpdate_markLoading reg :
  Forall (λ s, loading s = false) reg →
  Log.ofUpdate reg (applyUpdater MarkLoading reg) = Log.Generating <$> seq 0 (length reg).
Proof.
  intros Hidle. unfold Log.ofUpdate, applyUpdater.
  rewrite flips_fmap_all, flips_fmap_none.
  - by rewrite app_nil_r.
  - eapply Forall_impl; [exact Hidle|]. intros s Hs. left. rewrite Hs. discriminate.
  - eapply Forall_impl; [exact Hidle|]. intros s Hs. done.
Qed.

Lemma ofUpdate_settlement o reg :
  Forall (λ s, loading s = true) reg →
  Log.ofUpdate reg (applyUpdater (settlement o) reg) = Log.Settled <$> seq 0 (length reg).
Proof.
  intros Hload. unfold Log.ofUpdate, applyUpdater.
  rewrite flips_fmap_none, flips_fmap_all; [done| |].
  - eapply Forall_impl; [exact Hload|]. intros s Hs.
    split; [done|]. by destruct o as [[[] ? ?]|].
  - eapply Forall_impl; [exact Hload|]. intros s Hs. left. rewrite Hs. discriminate.
Qed.

Lemma observe_afterAwait o reg :
  Log.observe (afterAwait o) reg = Log.ofUpdate reg (applyUpdater (settlement o) reg).
Proof. destruct o as [[[] ? ?]|]; simpl; by rewrite ?app_nil_r. Qed.

Lemma markLoading_all_loading reg :
  Forall (λ s, loading s = true) (applyUpdater MarkLoading reg).
Proof. unfold applyUpdater. apply Forall_fmap, Forall_true. done. Qed.

Lemma generatingOrder_run (l l' : list nat) :
  Log.generatingOrder ((Log.Generating <$> l) ++ [Log.Issued] ++ (Log.Settled <$> l')) = l.
Proof.
  unfold Log.generatingOrder.
  induction l as [|i l IH].
  - induction l' as [|i' l' IH']; [done|]. exact IH'.
  - rewrite fmap_cons. cbn. f_equal. exact IH.
Qed.

Lemma requests_run (l l' : list nat) :
  Log.requests ((Log.Generating <$> l) ++ [Log.Issued] ++ (Log.Settled <$> l')) = 1%nat.
Proof.
  unfold Log.requests.
  induction l as [|i l IH].
  - cbn [fmap list_fmap app]. rewrite filter_cons_True by done.
    cbn [length]. f_equal.
    induction l' as [|i' l' IH']; [done|].
    rewrite fmap_cons, filter_cons_False by done. exact IH'.
  - rewrite fmap_cons. cbn [app]. rewrite filter_cons_False by done. exact IH.
Qed.

(** The log of section 4.4 is sequential in this sense, so the statement
    can be met. *)
Lemma sequentialLog_sequentialOrder :
  Spec.sequentialOrder 3 (Spec.sequentialLog 3).
Proof.
  split; [reflexivity|].
  intros [|[|[|i]]] Hi; try lia; (eexists; split; [reflexivity|]).
  - apply list_elem_of_In. simpl. tauto.
  - apply list_elem_of_In. simpl. tauto.
Qed.

(** C1, as the specification has it, fails: on a page with two screens
    both enter Generating before the only request of the run is issued, and
    both are settled by its response; there is no second request, so none
    that follows the response of screen 0. *)
Lemma run_not_sequential :
  Log.ofRun Sample.twoScreens Sample.allSucceed
  = [Log.Generating 0; Log.Generating 1; Log.Issued; Log.Settled 0; Log.Settled 1]
  ∧ Spec.beforeRequest 1 (Log.ofRun Sample.twoScreens Sample.allSucceed) = None
  ∧ ¬ Spec.sequential Sample.twoScreens Sample.allSucceed.
Proof.
  split; [reflexivity|]. split; [reflexivity|].
  intros [_ Hreq]. destruct (Hreq 1%nat) as (pre & Hpre & _).
  - simpl. lia.
  - discriminate Hpre.
Qed.

(** C1, amended. A run on an idle registry of n screens marks all n
    screens as loading in one update, in index order 0, ..., n-1, then
    issues its request, the only one of the run whatever n is, and the
    response, success or failure, settles all n screens in one update. *)
Theorem handleGenerate_single_request (st : State) (env : Api.Env) :
  falsy (trim (prompt st)) = false →
  Forall (λ s, loading s = false) (screens st) →
  Log.ofRun st env
  = (Log.Generating <$> seq 0 (length (screens st)))
    ++ [Log.Issued] ++ (Log.Settled <$> seq 0 (length (screens st)))
  ∧ Log.generatingOrder (Log.ofRun st env) = seq 0 (length (screens st))
  ∧ Log.requests (Log.ofRun st env) = 1%nat.
Proof.
  intros Hp Hidle.
  assert (Hlog : Log.ofRun st env
    = (Log.Generating <$> seq 0 (length (screens st)))
      ++ [Log.Issued] ++ (Log.Settled <$> seq 0 (length (screens st)))).
  { unfold Log.ofRun. rewrite (handleGenerate_trace _ _ Hp). simpl.
    rewrite (ofUpdate_markLoading _ Hidle). f_equal. f_equal.
    rewrite observe_afterAwait, ofUpdate_settlement by apply markLoading_all_loading.
    unfold applyUpdater. by rewrite length_fmap. }
  rewrite Hlog. split; [done|]. split.
  - apply generatingOrder_run.
  - apply requests_run.
Qed.

Lemma handleGenerate_single_request_witness :
  Log.requests (Log.ofRun Sample.twoScreens Sample.firstFails) = 1%nat.
Proof.
  refine (proj2 (proj2 (handleGenerate_single_request Sample.twoScreens Sample.firstFails _ _))).
  - reflexivity.
  - repeat constructor.
Defined.

(** *** Failure of the request *)

(** C2, as the specification has it, fails: on a page with two screens
    whose first request throws while every later one would succeed, the
    second screen ends without content. *)
Lemma failure_not_isolated :
  screens (runGenerate Sample.twoScreens Sample.firstFails)
  = [ mkScreen "main" "App Screen" None 1024 768 0 0 false;
      mkScreen "screen-17" "Screen 2" None 1024 768 70 70 false ]
  ∧ ¬ Spec.failureIsolated Sample.twoScreens Sample.firstFails 0.
Proof.
  split; [reflexivity|]. intros Hiso.
  destruct Hiso as [Hlater _].
  - simpl. lia.
  - reflexivity.
  - intros [|j] Hj; [lia|reflexivity].
  - destruct (Hlater 1%nat) as (s & Hs & Hready); [simpl; lia|].
    injection Hs as <-. discriminate Hready.
Qed.

(** C2, amended. The run depends on the outcome of its single request
    only: when that request fails (it throws, or answers without the
    success flag) every screen ends not loading and without content; when
    it succeeds every screen ends Ready; what a later request would have
    answered changes nothing. *)
Theorem generation_all_or_nothing (st : State) (env : Api.Env) :
  falsy (trim (prompt st)) = false →
  (Api.failed (env 0%nat) = true →
     Forall (λ s, Status.failed s = true) (screens (runGenerate st env)))
  ∧ (Api.failed (env 0%nat) = false →
     Forall (λ s, Status.ready s = true) (screens (runGenerate st env)))
  ∧ (∀ env', env' 0%nat = env 0%nat → runGenerate st env' = runGenerate st env).
Proof.
  intros Hp. split; [|split].
  - intros Hf. rewrite (runGenerate_screens _ _ Hp), (settlement_failed _ Hf).
    unfold applyUpdater. rewrite <- list_fmap_compose.
    apply Forall_fmap, Forall_true. done.
  - intros Hf. rewrite (runGenerate_screens _ _ Hp).
    destruct (settlement_succeeded _ Hf) as (response & _ & _ & ->).
    unfold applyUpdater. rewrite <- list_fmap_compose.
    apply Forall_fmap, Forall_true. done.
  - intros env' He. unfold runGenerate, handleGenerate. by rewrite He.
Qed.

Lemma generation_all_or_nothing_witness :
  Forall (λ s, Status.failed s = true)
         (screens (runGenerate Sample.twoScreens Sample.firstFails))
  ∧ Forall (λ s, Status.ready s = true)
           (screens (runGenerate Sample.twoScreens Sample.allSucceed)).
Proof.
  split.
  - refine (proj1 (generation_all_or_nothing Sample.twoScreens Sample.firstFails _) _);
      reflexivity.
  - refine (proj1 (proj2 (generation_all_or_nothing Sample.twoScreens Sample.allSucceed _)) _);
      reflexivity.
Defined.

(** C3, as the specification has it, fails: a page that shows the
    preview of an earlier run has lost it after a run whose request
    throws. *)
Lemma failed_run_clears_previews :
  html <$> screens Sample.withPreview = [Some "<html>app</html>"]
  ∧ html <$> screens (runGenerate Sample.withPreview Sample.firstFails) = [None]
  ∧ ¬ Spec.abortsUnchanged Sample.withPreview Sample.firstFails.
Proof.
  split; [reflexivity|]. split; [reflexivity|].
  intros Hab. specialize (Hab eq_refl). discriminate Hab.
Qed.

(** C3, amended. After a run whose request failed the list has the
    same length and every screen keeps its position in the list, its id,
    its name and its geometry; its content is absent and it is not loading,
    whatever they were before the run. The registry is the one the run
    started with exactly when no screen had content or was loading
    before. *)
Theorem failed_run_frame (st : State) (env : Api.Env) :
  falsy (trim (prompt st)) = false →
  Api.failed (env 0%nat) = true →
  length (screens (runGenerate st env)) = length (screens st)
  ∧ (∀ i s, screens st !! i = Some s →
       screens (runGenerate st env) !! i
       = Some (mkScreen (id s) (name s) None (w s) (h s) (x s) (y s) false))
  ∧ geometry <$> screens (runGenerate st env) = geometry <$> screens st
  ∧ (screens (runGenerate st env) = screens st
     ↔ Forall (λ s, html s = None ∧ loading s = false) (screens st)).
Proof.
  intros Hp Hf.
  assert (Hlook : ∀ i s, screens st !! i = Some s →
       screens (runGenerate st env) !! i
       = Some (mkScreen (id s) (name s) None (w s) (h s) (x s) (y s) false)).
  { intros i s Hs. rewrite (runGenerate_lookup _ _ _ _ Hp Hs).
    by rewrite (settlement_failed _ Hf). }
  assert (Hlen : length (screens (runGenerate st env)) = length (screens st)).
  { rewrite (runGenerate_screens _ _ Hp). unfold applyUpdater.
    by rewrite !length_fmap. }
  split; [exact Hlen|]. split; [exact Hlook|]. split; [|split].
  - rewrite (runGenerate_screens _ _ Hp). unfold applyUpdater.
    rewrite <- !list_fmap_compose. apply list_fmap_ext.
    intros i s _. by destruct (settlement (env 0%nat)).
  - intros Heq. apply Forall_lookup. intros i s Hs.
    pose proof (Hlook i s Hs) as Hrun. rewrite Heq, Hs in Hrun.
    destruct s. simpl in Hrun. injection Hrun as -> ->. done.
  - intros Hclean. apply list_eq. intros i.
    destruct (screens st !! i) as [s|] eqn:Hs.
    + rewrite (Hlook i s Hs).
      rewrite Forall_lookup in Hclean. destruct (Hclean i s Hs) as [Hh Hl].
      destruct s. simpl in *. by subst.
    + apply lookup_ge_None. rewrite Hlen. by apply lookup_ge_None.
Qed.

Lemma failed_run_frame_witness :
  screens (runGenerate Sample.withPreview Sample.firstFails) !! 0%nat
  = Some (mkScreen "main" "App Screen" None 1024 768 0 0 false)
  ∧ screens (runGenerate Sample.twoScreens Sample.firstFails) = screens Sample.twoScreens.
Proof.
  split.
  - refine (proj1 (proj2 (failed_run_frame Sample.withPreview Sample.firstFails _ _))
              0%nat (mkScreen "main" "App Screen" (Some "<html>app</html>") 1024 768 0 0 false) _);
      reflexivity.
  - refine (proj2 (proj2 (proj2 (proj2
              (failed_run_frame Sample.twoScreens Sample.firstFails _ _)))) _);
      [reflexivity | reflexivity | repeat constructor].
Defined.

(** *** Success of the request *)

(** C10. In a run whose request succeeds every screen of the registry
    ends with the [html_preview] of that one response as content and not
    loading, also when the registry changed before the timer fired; and
    after any run all screens carry the same content. *)
Theorem successful_run_uniform_content (st : State) (env : Api.Env) :
  falsy (trim (prompt st)) = false →
  (∀ response, env 0%nat = Api.Resolved response → Api.success response = true →
     Forall (λ s, html s = Some (Api.html_preview response) ∧ loading s = false)
            (screens (runGenerate st env))
     ∧ length (screens (runGenerate st env)) = length (screens st)
     ∧ List.last (handleGenerate st env) ConsoleError
       = SetTimeout 100 (ApplyPreview (Api.html_preview response))
     ∧ ∀ prev, Forall (λ s, html s = Some (Api.html_preview response) ∧ loading s = false)
                      (applyUpdater (ApplyPreview (Api.html_preview response)) prev))
  ∧ (∀ a b, a ∈ screens (runGenerate st env) → b ∈ screens (runGenerate st env) →
       html a = html b ∧ loading a = false).
Proof.
  intros Hp. split.
  - intros response He Hs.
    assert (Hany : ∀ prev,
      Forall (λ s, html s = Some (Api.html_preview response) ∧ loading s = false)
             (applyUpdater (ApplyPreview (Api.html_preview response)) prev)).
    { intros prev. unfold applyUpdater. apply Forall_fmap, Forall_true. done. }
    split; [|split; [|split; [|exact Hany]]].
    + rewrite (runGenerate_screens _ _ Hp), He. simpl. rewrite Hs. apply Hany.
    + rewrite (runGenerate_screens _ _ Hp). unfold applyUpdater.
      by rewrite !length_fmap.
    + rewrite (handleGenerate_trace _ _ Hp), He. simpl. by rewrite Hs.
  - intros a b Ha Hb. rewrite (runGenerate_screens _ _ Hp) in Ha, Hb.
    unfold applyUpdater in Ha, Hb.
    apply list_elem_of_fmap in Ha as (a' & -> & Ha').
    apply list_elem_of_fmap in Hb as (b' & -> & Hb').
    apply list_elem_of_fmap in Ha' as (a'' & -> & _).
    apply list_elem_of_fmap in Hb' as (b'' & -> & _).
    destruct (env 0%nat) as [[[] ? ?]|]; by split.
Qed.

Lemma successful_run_uniform_content_witness :
  Forall (λ s, html s = Some "<html>app</html>" ∧ loading s = false)
         (screens (runGenerate Sample.twoScreens Sample.allSucceed)).
Proof.
  refine (proj1 (proj1 (successful_run_uniform_content Sample.twoScreens Sample.allSucceed _)
                   Sample.okResponse _ _));
    reflexivity.
Defined.

End Generation.

(** ** The prompt guard *)

Section PromptGuard.

Import App.

Lemma trimStart_cons (a : Ascii.ascii) (s1 : string) :
  trimStart (String a s1)
  = if isWhiteSpace [a] then trimStart s1
    else match s1 with
         | String b s2 =>
             if isWhiteSpace [a; b] then trimStart s2
             else match s2 with
                  | String c s3 =>
                      if isWhiteSpace [a; b; c] then trimStart s3 else String a s1
                  | EmptyString => String a s1
                  end
         | EmptyString => String a s1
         end.
Proof. by destruct s1 as [|b [|c s3]]. Qed.

Lemma allWhiteSpace_cons (a : Ascii.ascii) (s1 : string) :
  allWhiteSpace (String a s1)
  = if isWhiteSpace [a] then allWhiteSpace s1
    else match s1 with
         | String b s2 =>
             if isWhiteSpace [a; b] then allWhiteSpace s2
             else match s2 with
                  | String c s3 => isWhiteSpace [a; b; c] && allWhiteSpace s3
                  | EmptyString => false
                  end
         | EmptyString => false
         end.
Proof. by destruct s1 as [|b [|c s3]]. Qed.

(** [trimStart] leaves nothing exactly of the strings made of white
    space, and leaves its own results as they are. *)
Lemma falsy_trimStart_bounded (n : nat) (p : string) :
  (String.length p < n)%nat →
  falsy (trimStart p) = allWhiteSpace p
  ∧ trimStart (trimStart p) = trimStart p.
Proof.
  revert p. induction n as [|n IH]; intros p Hn; [lia|].
  destruct p as [|a p1]; [done|].
  rewrite allWhiteSpace_cons.
  pose proof (trimStart_cons a p1) as Heq.
  cbn [String.length] in Hn.
  destruct (isWhiteSpace [a]) eqn:Ha.
  { rewrite Heq. apply IH. lia. }
  destruct p1 as [|b p2].
  { rewrite Heq. done. }
  cbn [String.length] in Hn.
  destruct (isWhiteSpace [a; b]) eqn:Hab.
  { rewrite Heq. apply IH. lia. }
  destruct p2 as [|c p3].
  { rewrite Heq. done. }
  cbn [String.length] in Hn.
  destruct (isWhiteSpace [a; b; c]) eqn:Habc.
  { rewrite Heq. apply IH. lia. }
  rewrite Heq. done.
Qed.

Lemma falsy_trimStart (p : string) : falsy (trimStart p) = allWhiteSpace p.
Proof. apply (falsy_trimStart_bounded (S (String.length p))). lia. Qed.

Lemma trimStart_idemp (p : string) : trimStart (trimStart p) = trimStart p.
Proof. apply (falsy_trimStart_bounded (S (String.length p))). lia. Qed.

Lemma falsy_trimEnd (p : string) : falsy (trimEnd p) = falsy (trimStart p).
Proof.
  destruct p as [|a p]; [done|].
  change (trimEnd (String a p))
    with (if falsy (trimStart (String a p)) then EmptyString else String a (trimEnd p)).
  by destruct (falsy (trimStart (String a p))).
Qed.

(** [!prompt.trim()] holds exactly for the prompts made of white space. *)
Lemma falsy_trim (p : string) : falsy (trim p) = allWhiteSpace p.
Proof. unfold trim. by rewrite falsy_trimEnd, trimStart_idemp, falsy_trimStart. Qed.

(** X1. A prompt made of white space only (the empty prompt too) starts
    nothing: no action is taken and the state after the run is the state
    before it. Any other prompt makes the handler mark the screens, clear
    the code and send the prompt as it was typed, untrimmed, with the
    current device class. *)
Theorem blank_prompt_starts_nothing (st : State) (env : Api.Env) :
  (allWhiteSpace (prompt st) = true →
     handleGenerate st env = [] ∧ runGenerate st env = st)
  ∧ (allWhiteSpace (prompt st) = false →
     handleGenerate st env
     = SetScreens MarkLoading :: SetCode None
       :: GenerateComponent (prompt st) (deviceType st) :: afterAwait (env 0%nat)).
Proof.
  unfold runGenerate, handleGenerate. rewrite falsy_trim.
  split; intros ->; [split|]; reflexivity.
Qed.

Lemma blank_prompt_starts_nothing_witness :
  runGenerate (setPrompt "  " Sample.withPreview) Sample.allSucceed
  = setPrompt "  " Sample.withPreview
  ∧ handleGenerate (setPrompt Sample.nbsp initialState) Sample.allSucceed = []
  ∧ handleGenerate (setPrompt " a " initialState) Sample.firstFails
    = SetScreens MarkLoading :: SetCode None
      :: GenerateComponent " a " web :: afterAwait Api.Rejected.
Proof.
  split; [|split].
  - refine (proj2 (proj1 (blank_prompt_starts_nothing
                            (setPrompt "  " Sample.withPreview) Sample.allSucceed) _)).
    reflexivity.
  - refine (proj1 (proj1 (blank_prompt_starts_nothing
                            (setPrompt Sample.nbsp initialState) Sample.allSucceed) _)).
    reflexivity.
  - refine (proj2 (blank_prompt_starts_nothing
                     (setPrompt " a " initialState) Sample.firstFails) _).
    reflexivity.
Defined.

End PromptGuard.

(** ** The code panel *)

Section Panel.

(** X2. The code of the page after a run with a non-blank prompt is the
    code of the response when the request succeeded and null when it failed,
    whatever it was before; after a failed run the panel shows its "No Code
    Generated" card and [handleCopy] does nothing, and whenever the panel
    shows code, [handleCopy] writes exactly that text to the clipboard and
    schedules the reset of the button after 2000 ms. *)
Theorem code_after_run (st : State) (env : Api.Env) (copied : bool) :
  falsy (trim (prompt st)) = false →
  (Api.failed (env 0%nat) = true →
     code (runGenerate st env) = None
     ∧ CodePanel.view (code (runGenerate st env)) copied = CodePanel.NoCodeGenerated
     ∧ CodePanel.handleCopy (code (runGenerate st env)) = [])
  ∧ (∀ response, env 0%nat = Api.Resolved response → Api.success response = true →
       code (runGenerate st env) = Some (Api.code response))
  ∧ (∀ c shown, CodePanel.view c copied = CodePanel.GeneratedCode shown copied →
       c = Some shown
       ∧ CodePanel.handleCopy c
         = [ CodePanel.WriteText shown; CodePanel.SetCopied true;
             CodePanel.SetTimeout 2000 false ]).
Proof.
  intros Hp. unfold runGenerate. rewrite (handleGenerate_trace _ _ Hp).
  split; [|split].
  - intros Hf. destruct (env 0%nat) as [[[] ? ?]|]; try discriminate Hf; done.
  - intros response -> Hs. simpl. by rewrite Hs.
  - intros [[|a c]|] shown Hv; try discriminate Hv.
    injection Hv as <-. done.
Qed.

Lemma code_after_run_witness :
  code (runGenerate Sample.withPreview Sample.firstFails) = None
  ∧ code (runGenerate Sample.twoScreens Sample.allSucceed) = Some "<App/>".
Proof.
  split.
  - refine (proj1 (proj1 (code_after_run Sample.withPreview Sample.firstFails false _) _));
      reflexivity.
  - refine (proj1 (proj2 (code_after_run Sample.twoScreens Sample.allSucceed false _))
              Sample.okResponse _ _); reflexivity.
Defined.

End Panel.

(** ** The canvas surface *)

Section CanvasSurface.

(** X3. A screen added to a page of n screens is rendered inside the
    5000 x 5000 surface exactly when n is at most 81 on a mobile page and at
    most 71 on a tablet or web page. *)
Theorem added_screen_on_surface (st : State) (now : Z) :
  Surface.onSurface (frameProps (newScreen st now)) = true
  ↔ (length (screens st) ≤ match deviceType st with mobile => 81 | _ => 71 end)%nat.
Proof.
  unfold Surface.onSurface, Surface.canvasSize, frameProps, newScreen, toRender,
    centerOffset. simpl.
  rewrite !andb_true_iff, !Z.leb_le.
  destruct (deviceType st); simpl; unfold addWidth, addHeight; simpl; lia.
Qed.

Lemma zoom_round_bounds (s : Q) :
  Viewport.inRange s → 40 ≤ Surface.round (s * 100) ≤ 400.
Proof.
  unfold Viewport.inRange, Surface.round. intros [Hlo Hhi].
  cbn [minScale maxScale config] in Hlo, Hhi. split.
  - change 40 with (Qfloor 40). apply Qfloor_resp_le. lra.
  - change 400 with (Qfloor (400 + (1 # 2))). apply Qfloor_resp_le. lra.
Qed.

(** X4. The zoom label is monotone in the scale, reads between 40 and
    400 for every scale of the configured range, 100 at the configured
    initial scale, and 100 when the library hands over no state at all. *)
Theorem zoom_label_bounds (v v' : Viewport.ViewportState) (fallback : option Viewport.ViewportState) :
  (Viewport.inRange (Viewport.scale v) → 40 ≤ Surface.zoomLabel (Some v) fallback ≤ 400)
  ∧ (Viewport.inRange (Viewport.scale v) → 40 ≤ Surface.zoomLabel None (Some v) ≤ 400)
  ∧ ((Viewport.scale v <= Viewport.scale v')%Q →
       Surface.zoomLabel (Some v) fallback ≤ Surface.zoomLabel (Some v') fallback)
  ∧ Surface.zoomLabel (Some Viewport.initial) fallback = 100
  ∧ Surface.zoomLabel None None = 100.
Proof.
  split; [|split; [|split; [|split]]].
  - intros Hr. unfold Surface.zoomLabel. by apply zoom_round_bounds.
  - intros Hr. unfold Surface.zoomLabel. by apply zoom_round_bounds.
  - intros Hle. unfold Surface.zoomLabel, Surface.round. apply Qfloor_resp_le. lra.
  - reflexivity.
  - reflexivity.
Qed.

Lemma zoom_label_bounds_witness :
  40 ≤ Surface.zoomLabel (Some (Viewport.mkViewport (4 # 10) 0 0)) None ≤ 400
  ∧ Surface.zoomLabel (Some (Viewport.mkViewport (4 # 10) 0 0)) None
    ≤ Surface.zoomLabel (Some (Viewport.mkViewport 4 0 0)) None.
Proof.
  split.
  - refine (proj1 (zoom_label_bounds (Viewport.mkViewport (4 # 10) 0 0)
                     (Viewport.mkViewport 4 0 0) None) _).
    split; discriminate.
  - refine (proj1 (proj2 (proj2 (zoom_label_bounds (Viewport.mkViewport (4 # 10) 0 0)
                     (Viewport.mkViewport 4 0 0) None))) _).
    discriminate.
Defined.

End CanvasSurface.

(** ** The event loop *)

Section EventLoop.

Import App.

Implicit Types (wd : World) (ev : Event) (evs : list Event) (reg : list ScreenData).

Lemma reach_snoc evs ev : reach (evs ++ [ev]) = fire (reach evs) ev.
Proof. unfold reach, fireAll. by rewrite foldl_snoc. Qed.

(** X5. On a page with no request outstanding and no timer running,
    pressing Enter, the answer of the request and the firing of the timer,
    with nothing in between, leave the page in the state of [runGenerate];
    nothing is left outstanding, and the one request sent, if the prompt is
    not blank, carries the prompt and the device class. *)
Theorem uninterrupted_run (wd : World) (env : Api.Env) :
  outstanding wd = 0%nat → timers wd = [] →
  page (fireAll wd [PressEnter; Settle (env 0%nat); TimerFires]) = runGenerate (page wd) env
  ∧ outstanding (fireAll wd [PressEnter; Settle (env 0%nat); TimerFires]) = 0%nat
  ∧ timers (fireAll wd [PressEnter; Settle (env 0%nat); TimerFires]) = []
  ∧ sent (fireAll wd [PressEnter; Settle (env 0%nat); TimerFires])
    = sent wd ++ (if falsy (trim (prompt (page wd))) then []
                  else [(prompt (page wd), deviceType (page wd))]).
Proof.
  destruct wd as [st n snt tm al]. simpl. intros -> ->.
  unfold runGenerate, handleGenerate, beforeAwait.
  destruct (falsy (trim (prompt st))) eqn:Hp; simpl.
  - by rewrite app_nil_r.
  - destruct (env 0%nat) as [[[] ? ?]|]; simpl; done.
Qed.

Lemma uninterrupted_run_witness :
  page (fireAll (reach [ChangePrompt "Login screen"])
          [PressEnter; Settle (Sample.allSucceed 0%nat); TimerFires])
  = runGenerate (page (reach [ChangePrompt "Login screen"])) Sample.allSucceed.
Proof.
  refine (proj1 (uninterrupted_run (reach [ChangePrompt "Login screen"])
                   Sample.allSucceed _ _)); reflexivity.
Defined.

(** *** One preview for all frames *)

Ltac event_cases ev :=
  destruct ev; unfold fire, report, beforeAwait, afterAwait;
  repeat case_match; simpl; try done.

Lemma content_frameProps (s : ScreenData) :
  ScreenFrame.content (frameProps s)
  = if loading s then ScreenFrame.Spinner
    else match orNull (html s) with
         | Some srcDoc => ScreenFrame.Iframe srcDoc
         | None => ScreenFrame.NoPreview
         end.
Proof. by destruct s as [i n [[|c0 d]|] sw sh sx sy []]. Qed.

Lemma orNull_idemp (v : option string) : orNull (orNull v) = orNull v.
Proof. by destruct v as [[|c0 d]|]. Qed.

Lemma uniform_updater u reg : uniform reg → uniform (applyUpdater u reg).
Proof.
  intros (l & c & Hall). unfold applyUpdater. destruct u as [|preview|].
  - exists true, None. apply Forall_fmap, Forall_true. done.
  - exists false, (orNull (Some preview)). apply Forall_fmap, Forall_true. done.
  - exists false, c. apply Forall_fmap.
    eapply Forall_impl; [exact Hall|]. by intros s [_ Hc].
Qed.

Lemma uniform_fmap (f : ScreenData → ScreenData) reg :
  (∀ s, loading (f s) = loading s ∧ html (f s) = html s) →
  uniform reg → uniform (f <$> reg).
Proof.
  intros Hf (l & c & Hall). exists l, c. apply Forall_fmap.
  eapply Forall_impl; [exact Hall|]. intros s [Hl Hc]. simpl.
  destruct (Hf s) as [-> ->]. done.
Qed.

Lemma uniform_add (st : State) (now : Z) :
  uniform (screens st) → uniform (screens st ++ [newScreen st now]).
Proof.
  intros (l & c & Hall). unfold newScreen.
  destruct (screens st) as [|s0 reg] eqn:Hreg.
  - exists false, None. by repeat constructor.
  - exists l, c. apply Forall_app. split; [exact Hall|].
    apply Forall_cons_1 in Hall as [[Hl Hc] _].
    repeat constructor; simpl; [exact Hl|]. by rewrite orNull_idemp.
Qed.

Lemma updateById_keeps_content (i : string) (data : PartialScreenData) (s : ScreenData) :
  p_html data = None → p_loading data = None →
  loading (updateById i data s) = loading s ∧ html (updateById i data s) = html s.
Proof.
  intros Hh Hl. unfold updateById. case_decide; [|done].
  unfold spread. simpl. by rewrite Hh, Hl.
Qed.

Lemma fire_uniform wd ev :
  uniform (screens (page wd)) → uniform (screens (page (fire wd ev))).
Proof.
  intros Hu. event_cases ev.
  - by apply uniform_updater.
  - by apply uniform_updater.
  - by apply uniform_updater.
  - by apply uniform_updater.
  - by apply uniform_updater.
  - by apply uniform_fmap.
  - by apply uniform_add.
  - apply uniform_fmap; [|done]. intros s'. by apply updateById_keeps_content.
  - apply uniform_fmap; [|done]. intros s'. by apply updateById_keeps_content.
Qed.

Lemma reach_uniform evs : uniform (screens (page (reach evs))).
Proof.
  induction evs as [|ev evs IH] using rev_ind.
  - exists false, None. by repeat constructor.
  - rewrite reach_snoc. by apply fire_uniform.
Qed.

(** X6. Whatever has happened to the page, in whatever order, all its
    frames show the same thing: all the spinner, or all the same preview, or
    all the text that there is no preview. *)
Theorem frames_show_the_same (evs : list Event) :
  ∃ c, Forall (λ p, ScreenFrame.content p = c)
              (Surface.frames (screens (page (reach evs)))).
Proof.
  destruct (reach_uniform evs) as (l & c & Hall).
  exists (if l then ScreenFrame.Spinner
          else match c with
               | Some srcDoc => ScreenFrame.Iframe srcDoc
               | None => ScreenFrame.NoPreview
               end).
  unfold Surface.frames. apply Forall_fmap.
  eapply Forall_impl; [exact Hall|]. intros s [Hl Hc]. simpl.
  by rewrite content_frameProps, Hl, Hc.
Qed.

(** *** No spinner is left behind *)

Lemma settled_updater u reg :
  u ≠ MarkLoading → Forall (λ s, loading s = false) (applyUpdater u reg).
Proof.
  intros Hu. unfold applyUpdater. apply Forall_fmap, Forall_true.
  intros s. by destruct u.
Qed.

Lemma settled_fmap (f : ScreenData → ScreenData) reg :
  (∀ s, loading (f s) = loading s) →
  Forall (λ s, loading s = false) reg → Forall (λ s, loading s = false) (f <$> reg).
Proof.
  intros Hf Hall. apply Forall_fmap. eapply Forall_impl; [exact Hall|].
  intros s Hs. simpl. by rewrite Hf.
Qed.

Lemma settled_add (st : State) (now : Z) :
  Forall (λ s, loading s = false) (screens st) →
  Forall (λ s, loading s = false) (screens st ++ [newScreen st now]).
Proof.
  intros Hall. apply Forall_app. split; [exact Hall|].
  repeat constructor. unfold newScreen. simpl.
  destruct (screens st) as [|s0 reg]; [done|]. simpl.
  by apply Forall_cons_1 in Hall as [-> _].
Qed.

Lemma fire_settles wd ev :
  Forall (λ u, u ≠ MarkLoading) (timers wd)
  ∧ (outstanding wd = 0%nat → timers wd = [] →
     Forall (λ s, loading s = false) (screens (page wd))) →
  Forall (λ u, u ≠ MarkLoading) (timers (fire wd ev))
  ∧ (outstanding (fire wd ev) = 0%nat → timers (fire wd ev) = [] →
     Forall (λ s, loading s = false) (screens (page (fire wd ev)))).
Proof.
  intros [Ht Hq]. event_cases ev.
  all: try (split; [done|]; intros Ho Htm; specialize (Hq Ho Htm); try done).
  - split; [done|]. intros _ Htm. by apply Hq.
  - split; [apply Forall_app; by repeat constructor|].
    intros _ Habs. by destruct (timers wd).
  - split; [done|]. intros _ _. by apply settled_updater.
  - split; [done|]. intros _ _. by apply settled_updater.
  - split; [by rewrite H|]. intros Ho _. by apply Hq.
  - apply Forall_cons_1 in Ht as [Hs Hl]. split; [done|].
    intros _ _. by apply settled_updater.
  - by apply settled_fmap.
  - by apply settled_add.
  - apply settled_fmap; [|done]. intros s'. by apply updateById_keeps_content.
  - apply settled_fmap; [|done]. intros s'. by apply updateById_keeps_content.
Qed.

Lemma reach_settles evs :
  Forall (λ u, u ≠ MarkLoading) (timers (reach evs))
  ∧ (outstanding (reach evs) = 0%nat → timers (reach evs) = [] →
     Forall (λ s, loading s = false) (screens (page (reach evs)))).
Proof.
  induction evs as [|ev evs IH] using rev_ind.
  - split; [constructor|]. intros _ _. by repeat constructor.
  - rewrite reach_snoc. by apply fire_settles.
Qed.

(** X7. Whatever has happened to the page, once no request is
    outstanding and no timer is running no screen is loading, so no frame
    shows the spinner, and the Generate button is disabled only by a blank
    prompt. *)
Theorem no_spinner_left_behind (evs : list Event) :
  outstanding (reach evs) = 0%nat → timers (reach evs) = [] →
  Forall (λ s, loading s = false) (screens (page (reach evs)))
  ∧ Forall (λ p, ScreenFrame.content p ≠ ScreenFrame.Spinner)
           (Surface.frames (screens (page (reach evs))))
  ∧ generateDisabled (page (reach evs)) = allWhiteSpace (prompt (page (reach evs))).
Proof.
  intros Ho Htm. destruct (reach_settles evs) as [_ Hq].
  specialize (Hq Ho Htm). split; [exact Hq|]. split.
  - unfold Surface.frames. apply Forall_fmap.
    eapply Forall_impl; [exact Hq|]. intros s Hs. simpl.
    rewrite content_frameProps, Hs. by case_match.
  - unfold generateDisabled. rewrite falsy_trim.
    replace (existsb loading (screens (page (reach evs)))) with false; [done|].
    symmetry. apply not_true_is_false. intros (s & Hin & Hs)%existsb_exists.
    apply list_elem_of_In in Hin. rewrite Forall_forall in Hq.
    rewrite (Hq s Hin) in Hs. done.
Qed.

Lemma no_spinner_left_behind_witness :
  Forall (λ s, loading s = false)
    (screens (page (reach [ChangePrompt "a"; PressEnter; ClickAddScreen 5; PressEnter;
                           Settle Api.Rejected; ClickAddScreen 6;
                           Settle (Api.Resolved Sample.okResponse); TimerFires])))
  ∧ generateDisabled (page (reach [ChangePrompt Sample.nbsp; PressEnter])) = true
  ∧ generateDisabled (page (reach [ChangePrompt "a"; PressEnter; Settle Api.Rejected]))
    = false.
Proof.
  split; [|split].
  - refine (proj1 (no_spinner_left_behind
      [ChangePrompt "a"; PressEnter; ClickAddScreen 5; PressEnter;
       Settle Api.Rejected; ClickAddScreen 6;
       Settle (Api.Resolved Sample.okResponse); TimerFires] _ _)); reflexivity.
  - refine (proj2 (proj2 (no_spinner_left_behind
      [ChangePrompt Sample.nbsp; PressEnter] _ _))); reflexivity.
  - refine (proj2 (proj2 (no_spinner_left_behind
      [ChangePrompt "a"; PressEnter; Settle Api.Rejected] _ _))); reflexivity.
Defined.

(** *** Ids and names *)

Lemma fmap_keeps {A} (proj : ScreenData → A) (f : ScreenData → ScreenData) reg :
  (∀ s, proj (f s) = proj s) → proj <$> (f <$> reg) = proj <$> reg.
Proof. intros Hf. rewrite <- list_fmap_compose. apply list_fmap_ext. intros i s _. apply Hf. Qed.

Lemma updateById_keeps_id_name (i : string) (data : PartialScreenData) (s : ScreenData) :
  p_id data = None → p_name data = None →
  id (updateById i data s) = id s ∧ name (updateById i data s) = name s.
Proof.
  intros Hi Hn. unfold updateById. case_decide; [|done].
  unfold spread. simpl. by rewrite Hi, Hn.
Qed.

Lemma updateScreen_keeps_id_name (u : ScreensUpdater) (s : ScreenData) :
  id (updateScreen u s) = id s ∧ name (updateScreen u s) = name s.
Proof. by destruct u. Qed.

Lemma fire_ids wd ev :
  id <$> screens (page (fire wd ev))
  = (id <$> screens (page wd))
    ++ match ev with
       | ClickAddScreen now => ["screen-" +:+ pretty now]
       | _ => []
       end.
Proof.
  event_cases ev; rewrite ?app_nil_r; try done.
  1-5: unfold applyUpdater; apply fmap_keeps; intros s'; apply updateScreen_keeps_id_name.
  - by apply fmap_keeps.
  - by rewrite fmap_app.
  - apply fmap_keeps. intros s'. by apply updateById_keeps_id_name.
  - apply fmap_keeps. intros s'. by apply updateById_keeps_id_name.
Qed.

Lemma fire_names wd ev :
  name <$> screens (page (fire wd ev))
  = (name <$> screens (page wd))
    ++ match ev with
       | ClickAddScreen _ =>
           ["Screen " +:+ pretty (Z.of_nat (length (screens (page wd))) + 1)]
       | _ => []
       end.
Proof.
  event_cases ev; rewrite ?app_nil_r; try done.
  1-5: unfold applyUpdater; apply fmap_keeps; intros s'; apply updateScreen_keeps_id_name.
  - by apply fmap_keeps.
  - by rewrite fmap_app.
  - apply fmap_keeps. intros s'. by apply updateById_keeps_id_name.
  - apply fmap_keeps. intros s'. by apply updateById_keeps_id_name.
Qed.

Lemma addTimes_snoc evs ev :
  addTimes (evs ++ [ev])
  = addTimes evs ++ match ev with ClickAddScreen now => [now] | _ => [] end.
Proof. unfold addTimes. rewrite omap_app. f_equal. by destruct ev. Qed.

(** The ids and the length of the registry, by the clicks on "add
    screen". *)
Lemma reach_registry_ids (evs : list Event) :
  id <$> screens (page (reach evs))
  = "main" :: ((λ now, "screen-" +:+ pretty now) <$> addTimes evs)
  ∧ length (screens (page (reach evs))) = S (length (addTimes evs)).
Proof.
  assert (Hids : id <$> screens (page (reach evs))
                 = "main" :: ((λ now, "screen-" +:+ pretty now) <$> addTimes evs)).
  { induction evs as [|ev evs IH] using rev_ind; [done|].
    rewrite reach_snoc, fire_ids, IH, addTimes_snoc.
    destruct ev; rewrite ?app_nil_r; try done. by rewrite fmap_app. }
  split; [exact Hids|].
  rewrite <- (length_fmap id), Hids. simpl. by rewrite length_fmap.
Qed.

(** X8. Whatever has happened to the page, the registry is the initial
    screen "main" followed by one screen per click on "add screen", in the
    order of the clicks: no screen is ever removed, moved in the list or
    renamed; the id of an added screen is "screen-" and the time of its
    click, and the screen at position i > 0 is called "Screen i+1". *)
Theorem registry_ids_and_names (evs : list Event) :
  id <$> screens (page (reach evs))
  = "main" :: ((λ now, "screen-" +:+ pretty now) <$> addTimes evs)
  ∧ name <$> screens (page (reach evs))
    = "App Screen"
      :: ((λ i, "Screen " +:+ pretty (Z.of_nat i + 2)) <$> seq 0 (length (addTimes evs)))
  ∧ length (screens (page (reach evs))) = S (length (addTimes evs)).
Proof.
  destruct (reach_registry_ids evs) as [Hids Hlen].
  split; [exact Hids|]. split; [|exact Hlen]. clear Hids Hlen.
  induction evs as [|ev evs IH] using rev_ind; [done|].
  destruct (reach_registry_ids evs) as [_ Hlen].
  rewrite reach_snoc, fire_names, IH, Hlen, addTimes_snoc.
  destruct ev; rewrite ?app_nil_r; try done.
  rewrite length_app. simpl. rewrite Nat.add_1_r, seq_S, fmap_app. simpl.
  do 5 f_equal. lia.
Qed.

#[local] Instance screenId_inj : Inj (=) (=) (λ now : Z, "screen-" +:+ pretty now).
Proof. intros a b Hab. simpl in Hab. injection Hab as Hab. by apply (inj pretty). Qed.

(** X9. When no two clicks on "add screen" fall into the same
    millisecond, the ids of the registry are pairwise different. *)
Theorem registry_ids_unique (evs : list Event) :
  NoDup (addTimes evs) → NoDup (id <$> screens (page (reach evs))).
Proof.
  intros Hnd. destruct (reach_registry_ids evs) as [-> _].
  apply NoDup_cons. split.
  - intros (now & Habs & _)%list_elem_of_fmap. discriminate Habs.
  - by apply (NoDup_fmap_2 _).
Qed.

Lemma registry_ids_unique_witness :
  NoDup (id <$> screens (page (reach [ClickAddScreen 17; ChooseDevice mobile;
                                      ClickAddScreen 18]))).
Proof.
  apply (registry_ids_unique [ClickAddScreen 17; ChooseDevice mobile; ClickAddScreen 18]).
  apply NoDup_cons. split; [|apply NoDup_singleton].
  intros Hin. apply list_elem_of_singleton in Hin. discriminate Hin.
Defined.

(** *** Reports of the frames *)






(** *** The device class *)

Lemma resize_resize (t1 t2 : DeviceType) (s : ScreenData) :
  resize t2 (resize t1 s) = resize t2 s.
Proof. reflexivity. Qed.

Lemma resize_newScreen (type : DeviceType) (st : State) (now : Z) :
  resize type (newScreen st now) = newScreen (handleDeviceChange type st) now.
Proof.
  unfold resize, newScreen, handleDeviceChange. simpl.
  rewrite length_fmap, <- addWidth_deviceSize.
  replace (deviceSize type).2 with (addHeight type) by (by destruct type).
  f_equal; by destruct (screens st).
Qed.

Lemma resize_updateById_drag (type : DeviceType) (i : string) (screen s : ScreenData) (rx ry : Z) :
  resize type (updateById i (onDragStop screen rx ry).2 s)
  = updateById i (onDragStop screen rx ry).2 (resize type s).
Proof. unfold updateById. simpl. by case_decide. Qed.

(** X12. Of two device changes in a row the later one wins (so a change
    done twice is a change done once); a device change after "add screen"
    gives the page that "add screen" after the device change gives; and a
    device change commutes with a drag report. *)
Theorem device_change_composes (t1 t2 : DeviceType) (st : State)
    (now : Z) (i : string) (screen : ScreenData) (rx ry : Z) :
  handleDeviceChange t2 (handleDeviceChange t1 st) = handleDeviceChange t2 st
  ∧ handleDeviceChange t1 (handleAddScreen now st)
    = handleAddScreen now (handleDeviceChange t1 st)
  ∧ handleDeviceChange t1 (handleScreenUpdate i (onDragStop screen rx ry).2 st)
    = handleScreenUpdate i (onDragStop screen rx ry).2 (handleDeviceChange t1 st).
Proof.
  split; [|split].
  - unfold handleDeviceChange, setScreens, setDeviceType. simpl. f_equal.
    rewrite <- list_fmap_compose. apply list_fmap_ext. intros k s _. apply resize_resize.
  - unfold handleDeviceChange at 1. unfold handleAddScreen, setScreens, setDeviceType.
    simpl. f_equal. by rewrite fmap_app, <- resize_newScreen.
  - unfold handleDeviceChange, handleScreenUpdate, setScreens, setDeviceType. simpl.
    f_equal. rewrite <- !list_fmap_compose. apply list_fmap_ext.
    intros k s _. apply (resize_updateById_drag t1 i screen).
Qed.

Lemma sizes_fmap (f : ScreenData → ScreenData) (d : Z * Z) reg :
  (∀ s, (w (f s), h (f s)) = (w s, h s)) →
  Forall (λ s, (w s, h s) = d) reg → Forall (λ s, (w s, h s) = d) (f <$> reg).
Proof.
  intros Hf Hall. apply Forall_fmap. eapply Forall_impl; [exact Hall|].
  intros s Hs. simpl. by rewrite Hf.
Qed.

Lemma fire_keeps_sizes wd ev :
  isResize ev = false →
  Forall (λ s, (w s, h s) = deviceSize (deviceType (page wd))) (screens (page wd)) →
  Forall (λ s, (w s, h s) = deviceSize (deviceType (page (fire wd ev))))
         (screens (page (fire wd ev))).
Proof.
  intros Hev Hall. event_cases ev.
  1-5: unfold applyUpdater; apply sizes_fmap; [|done]; intros s';
       by match goal with |- context [updateScreen ?u _] => destruct u end.
  - apply Forall_fmap, Forall_true. intros s'. simpl. by destruct type.
  - apply Forall_app. split; [done|]. repeat constructor. simpl.
    rewrite addWidth_deviceSize. by destruct (deviceType (page wd)).
  - apply sizes_fmap; [|done]. intros s'. unfold updateById. by case_decide.
Qed.

(** X13. As long as no frame has reported a resize, every screen of the
    page has the width and height of the current device class, whatever else
    has happened. *)
Theorem sizes_follow_device (evs : list Event) :
  Forall (λ ev, isResize ev = false) evs →
  Forall (λ s, (w s, h s) = deviceSize (deviceType (page (reach evs))))
         (screens (page (reach evs))).
Proof.
  induction evs as [|ev evs IH] using rev_ind; intros Hevs.
  - by repeat constructor.
  - apply Forall_app in Hevs as [Hevs Hev]. apply Forall_cons_1 in Hev as [Hev _].
    rewrite reach_snoc. apply fire_keeps_sizes; [exact Hev|]. by apply IH.
Qed.

Lemma sizes_follow_device_witness :
  Forall (λ s, (w s, h s) = (768, 1024))
    (screens (page (reach [ClickAddScreen 17; ChooseDevice mobile; DragStop 0 3000 3000;
                           ClickAddScreen 18; ChooseDevice tablet]))).
Proof.
  apply (sizes_follow_device [ClickAddScreen 17; ChooseDevice mobile; DragStop 0 3000 3000;
                              ClickAddScreen 18; ChooseDevice tablet]).
  repeat constructor.
Defined.

(** *** The Generate button and the Enter key *)

Lemma fire_PressEnter_outstanding wd :
  falsy (trim (prompt (page wd))) = false →
  outstanding (fire wd PressEnter) = S (outstanding wd)
  ∧ sent (fire wd PressEnter) = sent wd ++ [(prompt (page wd), deviceType (page wd))]
  ∧ prompt (page (fire wd PressEnter)) = prompt (page wd)
  ∧ deviceType (page (fire wd PressEnter)) = deviceType (page wd).
Proof. intros Hp. unfold fire, beforeAwait. by rewrite Hp. Qed.

(** X14. A second click on Generate right after a first one does
    nothing, on every page that can be reached: the first click either is
    dead or puts every screen into loading, which disables the button. *)
Theorem double_click_is_one_click (evs : list Event) :
  fire (fire (reach evs) ClickGenerate) ClickGenerate = fire (reach evs) ClickGenerate.
Proof.
  destruct (reach_registry_ids evs) as [_ Hlen].
  set (wd := reach evs) in *.
  assert (Hfire : fire wd ClickGenerate
                  = if generateDisabled (page wd) then wd
                    else performAll wd (beforeAwait (page wd))) by reflexivity.
  rewrite Hfire. destruct (generateDisabled (page wd)) eqn:Hd.
  - exact Hfire.
  - assert (Hd' : generateDisabled (page (performAll wd (beforeAwait (page wd)))) = true).
    { unfold generateDisabled in Hd. apply orb_false_iff in Hd as [_ Hp].
      unfold beforeAwait. rewrite Hp. unfold generateDisabled. simpl.
      destruct (screens (page wd)) as [|s0 reg]; [discriminate Hlen|]. done. }
    unfold fire. by rewrite Hd'.
Qed.

(** X15. The Enter key is not held back by a run in flight: with a
    prompt that is not blank, n presses of Enter send n requests, each with
    that prompt and the device class, and leave n more requests
    outstanding. *)
Theorem enter_sends_every_time (n : nat) (wd : World) :
  allWhiteSpace (prompt (page wd)) = false →
  outstanding (fireAll wd (replicate n PressEnter)) = (outstanding wd + n)%nat
  ∧ sent (fireAll wd (replicate n PressEnter))
    = sent wd ++ replicate n (prompt (page wd), deviceType (page wd)).
Proof.
  rewrite <- falsy_trim. revert wd.
  induction n as [|n IH]; intros wd Hp.
  - simpl. by rewrite Nat.add_0_r, app_nil_r.
  - destruct (fire_PressEnter_outstanding wd Hp) as (Ho & Hs & Hpr & Hdt).
    change (fireAll wd (replicate (S n) PressEnter))
      with (fireAll (fire wd PressEnter) (replicate n PressEnter)).
    destruct (IH (fire wd PressEnter)) as [IHo IHs]; [by rewrite Hpr|].
    rewrite IHo, IHs, Ho, Hs, Hpr, Hdt, <- app_assoc. split; [lia|done].
Qed.

Lemma enter_sends_every_time_witness :
  outstanding (fireAll (reach [ChangePrompt "Login"]) (replicate 3 PressEnter)) = 3%nat.
Proof.
  refine (proj1 (enter_sends_every_time 3 (reach [ChangePrompt "Login"]) _)).
  reflexivity.
Defined.

(** *** Loading screens carry no preview *)

Lemma loading_without_preview_fmap (f : ScreenData → ScreenData) reg :
  (∀ s, loading (f s) = loading s ∧ html (f s) = html s) →
  Forall (λ s, loading s = true → html s = None) reg →
  Forall (λ s, loading s = true → html s = None) (f <$> reg).
Proof.
  intros Hf Hall. apply Forall_fmap. eapply Forall_impl; [exact Hall|].
  intros s Hs. simpl. by destruct (Hf s) as [-> ->].
Qed.

Lemma fire_loading_without_preview wd ev :
  Forall (λ s, loading s = true → html s = None) (screens (page wd)) →
  Forall (λ s, loading s = true → html s = None) (screens (page (fire wd ev))).
Proof.
  intros Hall. event_cases ev.
  1-5: unfold applyUpdater; apply Forall_fmap; (eapply Forall_impl; [exact Hall|]);
       intros s' Hs'; simpl;
       try match goal with |- context [updateScreen ?u _] => is_var u; destruct u end;
       done.
  - by apply loading_without_preview_fmap.
  - apply Forall_app. split; [done|]. repeat constructor. unfold newScreen. simpl.
    destruct (screens (page wd)) as [|s0 reg]; [done|]. simpl.
    apply Forall_cons_1 in Hall as [Hs0 _]. intros Hl. by rewrite (Hs0 Hl).
  - apply loading_without_preview_fmap; [|done]. intros s'.
    by apply updateById_keeps_content.
  - apply loading_without_preview_fmap; [|done]. intros s'.
    by apply updateById_keeps_content.
Qed.

(** X16. Whatever has happened to the page, a screen that is loading
    carries no content: content is present only on screens that are not
    loading. *)
Theorem loading_screens_have_no_content (evs : list Event) :
  Forall (λ s, loading s = true → html s = None) (screens (page (reach evs))).
Proof.
  induction evs as [|ev evs IH] using rev_ind.
  - by repeat constructor.
  - rewrite reach_snoc. by apply fire_loading_without_preview.
Qed.

Lemma loading_screens_have_no_content_witness :
  html (mkScreen "main" "App Screen" None 1024 768 0 0 true) = None.
Proof.
  pose proof (loading_screens_have_no_content
                [ChangePrompt "a"; PressEnter; Settle (Api.Resolved Sample.okResponse);
                 TimerFires; PressEnter]) as Hall.
  apply Forall_cons_1 in Hall as [Hmain _]. apply Hmain. reflexivity.
Defined.

End EventLoop.

(** ** The copy button *)

Section CopyButton.

Lemma panel_fire_keeps (pn : CodePanel.Panel) (ev : CodePanel.Event) :
  CodePanel.resets pn = (if CodePanel.copied pn then 1 else 0)%nat →
  CodePanel.resets (CodePanel.fire pn ev)
  = (if CodePanel.copied (CodePanel.fire pn ev) then 1 else 0)%nat.
Proof.
  destruct pn as [[] cb n]; simpl; intros ->; destruct ev as [[[|c0 text]|]|]; done.
Qed.

(** X17. The copy button never sticks: whatever clicks and timers have
    happened since the panel was mounted, a reset timer is running exactly
    while the button reads "Copied" (and never more than one), so the next
    firing of a timer enables the button again; and a click on the enabled
    button puts exactly the code shown on the clipboard. *)
Theorem copied_is_always_reset (evs : list CodePanel.Event) :
  CodePanel.resets (CodePanel.reach evs)
  = (if CodePanel.copied (CodePanel.reach evs) then 1 else 0)%nat
  ∧ CodePanel.copied (CodePanel.fire (CodePanel.reach evs) CodePanel.ResetFires) = false
  ∧ ∀ code shown,
      CodePanel.view code (CodePanel.copied (CodePanel.reach evs))
      = CodePanel.GeneratedCode shown false →
      CodePanel.clipboard (CodePanel.fire (CodePanel.reach evs) (CodePanel.ClickCopy code))
      = Some shown
      ∧ CodePanel.copied (CodePanel.fire (CodePanel.reach evs) (CodePanel.ClickCopy code))
        = true.
Proof.
  assert (Hinv : CodePanel.resets (CodePanel.reach evs)
                 = (if CodePanel.copied (CodePanel.reach evs) then 1 else 0)%nat).
  { induction evs as [|ev evs IH] using rev_ind; [done|].
    unfold CodePanel.reach. rewrite foldl_snoc. by apply panel_fire_keeps. }
  split; [exact Hinv|]. split.
  - simpl. rewrite Hinv. by destruct (CodePanel.copied (CodePanel.reach evs)) eqn:Hc.
  - intros code shown Hv. simpl. rewrite Hv.
    destruct code as [[|c0 text]|]; try discriminate Hv.
    injection Hv as <- _. done.
Qed.

Lemma copied_is_always_reset_witness :
  CodePanel.clipboard
    (CodePanel.fire (CodePanel.reach [CodePanel.ClickCopy (Some "<A/>"); CodePanel.ResetFires])
                    (CodePanel.ClickCopy (Some "<App/>")))
  = Some "<App/>".
Proof.
  refine (proj1 (proj2 (proj2 (copied_is_always_reset
            [CodePanel.ClickCopy (Some "<A/>"); CodePanel.ResetFires]))
            (Some "<App/>") "<App/>" _)).
  reflexivity.
Defined.

End CopyButton.
